(** * EC2 monitor: alarm reconciliation on instance lifecycle events

    A shallow embedding of [src/lambda/ec2-monitor.ts].  The Lambda talks to
    four AWS services through SDK clients and to the timer through
    [setTimeout]; here every such call is an operation of a small state and
    exception monad whose state holds the collaborators' world and the log of
    the calls made so far, each with its reply, in the order they were made.
    Console output is not part of the model; the conversion to text of what
    a log line or a name interpolates is, since it can throw.

    The functions are typed on a string instance id, but the handler hands
    them whatever [event.detail['instance-id']] holds, so here they take any
    value: where the source passes the id on as it is, so does the model,
    and where the source renders it in a template literal, the model converts
    it with [ToString]. *)

From stdpp Require Import gmap strings list pretty.
From Stdlib Require Import ZArith.

Set Warnings "-register-all".

(** ** JavaScript values, as far as the inbound event needs them

    A number is held by its text, what [String(n)] gives, as [60], [-1.5] or
    [1e+21]: the program looks at nothing of a number but its text and
    whether it is zero, and the text of both zeros is [0]. *)

Inductive JsValue : Type :=
| JsUndefined
| JsNull
| JsBool (b : bool)
| JsNumber (text : string)
| JsString (s : string)
| JsArray (items : list JsValue)
| JsObject (fields : list (string * JsValue)).

(** [!v] is [negb (truthy v)]. *)
Definition truthy (v : JsValue) : bool :=
  match v with
  | JsUndefined | JsNull => false
  | JsBool b => b
  | JsNumber text => negb (String.eqb text "0") && negb (String.eqb text "NaN")
  | JsString s => negb (String.eqb s "")
  | JsArray _ | JsObject _ => true
  end.

(** [typeof v === 'object'] *)
Definition typeof_object (v : JsValue) : bool :=
  match v with
  | JsNull | JsArray _ | JsObject _ => true
  | _ => false
  end.

(** An object is the list of its own properties; the first binding of a key
    is its value, and a key that is not bound reads as [undefined]. *)
Fixpoint assoc (k : string) (fields : list (string * JsValue)) : JsValue :=
  match fields with
  | [] => JsUndefined
  | (k', v) :: rest => if String.eqb k k' then v else assoc k rest
  end.

(** [v[k]] for a string key that is neither an index nor a built-in
    property, on a value that is neither [undefined] nor [null]. *)
Definition prop (v : JsValue) (k : string) : JsValue :=
  match v with
  | JsObject fields => assoc k fields
  | _ => JsUndefined
  end.

(** [v === s] for a string literal [s]. *)
Definition strict_eq_string (v : JsValue) (s : string) : bool :=
  match v with
  | JsString s' => String.eqb s' s
  | _ => false
  end.

(** [o || ''] and the truthiness of an optional string field. *)
Definition or_empty (o : option string) : string :=
  match o with
  | Some s => s
  | None => ""
  end.

Definition truthy_field (o : option string) : bool :=
  negb (String.eqb (or_empty o) "").

(** [xs.includes(s)] *)
Definition includes (xs : list string) (s : string) : bool :=
  existsb (String.eqb s) xs.

(** A template literal's rendering of an optional string. *)
Definition render (o : option string) : string :=
  match o with
  | Some s => s
  | None => "undefined"
  end.

(** ** JSON.stringify on the values the configuration is made of *)

Definition hex_digit (n : N) : Ascii.ascii :=
  Ascii.ascii_of_N (if (n <? 10)%N then 48 + n else 87 + n).

Definition backslash : Ascii.ascii := Ascii.ascii_of_N 92.

Definition escape_char (c : Ascii.ascii) : string :=
  let n := Ascii.N_of_ascii c in
  if (n =? 34)%N then String backslash (String c "")
  else if (n =? 92)%N then String backslash (String backslash "")
  else if (n =? 8)%N then "\b"
  else if (n =? 12)%N then "\f"
  else if (n =? 10)%N then "\n"
  else if (n =? 13)%N then "\r"
  else if (n =? 9)%N then "\t"
  else if (n <? 32)%N then
    "\u00" +:+ String (hex_digit (n / 16)) (String (hex_digit (n mod 16)) "")
  else String c "".

Fixpoint escape (s : string) : string :=
  match s with
  | EmptyString => ""
  | String c rest => escape_char c +:+ escape rest
  end.

Definition dquote : string := String (Ascii.ascii_of_N 34) "".

Definition quoted (s : string) : string := dquote +:+ escape s +:+ dquote.

Definition comma_join (parts : list string) : string :=
  match parts with
  | [] => ""
  | p :: rest => fold_left (fun acc x => acc +:+ "," +:+ x) rest p
  end.

(** [JSON.stringify v] with no indentation; [None] is JavaScript's
    [undefined] result.  An [undefined] array item prints as [null] and an
    [undefined] field is left out; a number prints as its text, or as [null]
    when it is not finite. *)
Fixpoint JSON_stringify (v : JsValue) : option string :=
  match v with
  | JsUndefined => None
  | JsNull => Some "null"
  | JsBool b => Some (if b then "true" else "false")
  | JsNumber text =>
      Some (if existsb (String.eqb text) ["NaN"; "Infinity"; "-Infinity"]
            then "null" else text)
  | JsString s => Some (quoted s)
  | JsArray items =>
      Some ("[" +:+ comma_join
              (map (fun x => default "null" (JSON_stringify x)) items) +:+ "]")
  | JsObject fields =>
      Some ("{" +:+ comma_join
              (omap (fun kv => match JSON_stringify (snd kv) with
                               | Some text => Some (quoted (fst kv) +:+ ":" +:+ text)
                               | None => None
                               end) fields) +:+ "}")
  end.

(** ** Template literals

    [ToString] on the values an event is made of; [None] is the TypeError of
    a value that has no primitive form.  Here that is an object with an own
    [toString] property, which is never callable and hides the one of
    [Object.prototype] (the inherited [valueOf] then gives back the object
    itself), and an array that holds such an object.  An object without one
    renders as [[object Object]]; an array joins its items with commas, a
    [null] or [undefined] item as the empty string. *)

Definition has_key (k : string) (fields : list (string * JsValue)) : bool :=
  existsb (fun kv => String.eqb k (fst kv)) fields.

Fixpoint ToString (v : JsValue) : option string :=
  match v with
  | JsUndefined => Some "undefined"
  | JsNull => Some "null"
  | JsBool b => Some (if b then "true" else "false")
  | JsNumber text => Some text
  | JsString s => Some s
  | JsArray items =>
      match
        (fix join (items : list JsValue) : option (list string) :=
           match items with
           | [] => Some []
           | x :: rest =>
               match match x with
                     | JsUndefined | JsNull => Some ""
                     | _ => ToString x
                     end with
               | Some part =>
                   match join rest with
                   | Some parts => Some (part :: parts)
                   | None => None
                   end
               | None => None
               end
           end) items
      with
      | Some parts => Some (comma_join parts)
      | None => None
      end
  | JsObject fields =>
      if has_key "toString" fields then None else Some "[object Object]"
  end.

(** ** Thrown values *)

Inductive Thrown : Type :=
| Error (message : string)                    (* new Error(message) *)
| TypeError (message : string)                (* raised by the runtime *)
| AWSError (code message : option string).    (* a rejected SDK promise *)

(** [error && typeof error === 'object' && 'code' in error &&
    error.code === 'InvocationDoesNotExist'] *)
Definition isInvocationDoesNotExist (error : Thrown) : bool :=
  match error with
  | AWSError (Some code) _ => String.eqb code "InvocationDoesNotExist"
  | _ => false
  end.

(** ** Requests and responses of the SDK calls the Lambda makes *)

Module SSM.
Record SendCommandRequest := {
  DocumentName : string;
  InstanceIds : list JsValue;
  Parameters : list (string * list string)
}.
Record CommandInfo := { CommandId : option string }.
Record SendCommandResult := { Command : option CommandInfo }.

Record GetCommandInvocationRequest := {
  gci_CommandId : string;
  gci_InstanceId : JsValue
}.
Record GetCommandInvocationResult := {
  Status : option string;
  StandardErrorContent : option string
}.

(** [Value] is what [JSON.stringify] gave, [None] standing for [undefined]. *)
Record PutParameterRequest := {
  Name : string;
  Type_ : string;
  Value : option string;
  Overwrite : bool
}.
End SSM.

Module EC2.
Record Instance := { InstanceType : option string; ImageId : option string }.
Record Reservation := { Instances : option (list Instance) }.
Record DescribeInstancesResult := { Reservations : option (list Reservation) }.
End EC2.

Module CloudWatch.
(** A dimension's value is a string of the SDK's or the instance id, which is
    passed on as it came. *)
Record Dimension := { dim_Name : string; dim_Value : JsValue }.
Record PutMetricAlarmInput := {
  AlarmName : string;
  MetricName : string;
  Namespace : string;
  Period : Z;
  EvaluationPeriods : Z;
  DatapointsToAlarm : Z;
  Threshold : Z;
  ActionsEnabled : bool;
  AlarmActions : list string;
  ComparisonOperator : string;
  TreatMissingData : string;
  Statistic : string;
  Dimensions : list Dimension;
  AlarmDescription : string
}.
End CloudWatch.

Record InstanceInfo := { instanceType : string; imageId : string }.

(** [result.Reservations?.[0]?.Instances?.[0]] *)
Definition firstInstance (result : EC2.DescribeInstancesResult) : option EC2.Instance :=
  reservation ← (reservations ← EC2.Reservations result; head reservations);
  instances ← EC2.Instances reservation; head instances.

(** ** The call log *)

Inductive Call : Type :=
| SetTimeout (ms : Z)
| SendCommand (params : SSM.SendCommandRequest)
| GetCommandInvocation (params : SSM.GetCommandInvocationRequest)
| PutParameter (params : SSM.PutParameterRequest)
| DescribeInstances (instanceIds : list JsValue)
| PutMetricAlarm (params : CloudWatch.PutMetricAlarmInput)
| DeleteAlarms (alarmNames : list string).

Inductive Reply : Type :=
| Elapsed
| Rejected (error : Thrown)
| CommandSent (result : SSM.SendCommandResult)
| Invocation (result : SSM.GetCommandInvocationResult)
| Described (result : EC2.DescribeInstancesResult)
| Ack.

Definition Entry : Type := Call * Reply.

(** ** The collaborators

    Each SDK operation is a transition of the collaborators' world [W] that
    either rejects with a thrown value or resolves with a result; the timer
    lets the world move on for the given number of milliseconds. *)

Record Collaborators (W : Type) := {
  timer : Z -> W -> W;
  ssm_sendCommand : SSM.SendCommandRequest -> W -> W * (Thrown + SSM.SendCommandResult);
  ssm_getCommandInvocation :
    SSM.GetCommandInvocationRequest -> W -> W * (Thrown + SSM.GetCommandInvocationResult);
  ssm_putParameter : SSM.PutParameterRequest -> W -> W * (Thrown + unit);
  ec2_describeInstances : list JsValue -> W -> W * (Thrown + EC2.DescribeInstancesResult);
  cloudwatch_putMetricAlarm : CloudWatch.PutMetricAlarmInput -> W -> W * (Thrown + unit);
  cloudwatch_deleteAlarms : list string -> W -> W * (Thrown + unit)
}.

Arguments timer {W}.
Arguments ssm_sendCommand {W}.
Arguments ssm_getCommandInvocation {W}.
Arguments ssm_putParameter {W}.
Arguments ec2_describeInstances {W}.
Arguments cloudwatch_putMetricAlarm {W}.
Arguments cloudwatch_deleteAlarms {W}.

(** ** The monad: state, exceptions, and a call log *)

Record Run (W : Type) := { world : W; log : list Entry }.
Arguments world {W}.
Arguments log {W}.

Inductive Completion (A : Type) : Type :=
| Returned (a : A)
| Raised (e : Thrown).
Arguments Returned {A}.
Arguments Raised {A}.

(** [None] marks a loop that was given too little fuel. *)
Definition M (W A : Type) : Type := Run W -> option (Run W * Completion A).

Definition ret {W A} (a : A) : M W A := fun st => Some (st, Returned a).

Definition throw {W A} (e : Thrown) : M W A := fun st => Some (st, Raised e).

Definition uncovered {W A} : M W A := fun _ => None.

Definition bind {W A B} (m : M W A) (k : A -> M W B) : M W B :=
  fun st =>
    match m st with
    | Some (st', Returned a) => k a st'
    | Some (st', Raised e) => Some (st', Raised e)
    | None => None
    end.

(** [try { body } catch (error) { handler error }] *)
Definition try_catch {W A} (body : M W A) (handler : Thrown -> M W A) : M W A :=
  fun st =>
    match body st with
    | Some (st', Raised e) => handler e st'
    | other => other
    end.

Declare Scope prog_scope.
Delimit Scope prog_scope with prog.
Bind Scope prog_scope with M.

Notation "'await' x <- c ;; k" := (bind c (fun x => k))
  (at level 10, x name, c at level 99, k at level 200) : prog_scope.
Notation "'wait' c ;; k" := (bind c (fun _ => k))
  (at level 10, c at level 99, k at level 200) : prog_scope.

(** One promise: the call is logged with its reply, a rejection is thrown. *)
Definition promise {W A} (c : Call) (op : W -> W * (Thrown + A)) (reply : A -> Reply)
  : M W A :=
  fun st =>
    match op (world st) with
    | (w', inl e) => Some ({| world := w'; log := log st ++ [(c, Rejected e)] |}, Raised e)
    | (w', inr a) => Some ({| world := w'; log := log st ++ [(c, reply a)] |}, Returned a)
    end.

(** What a template literal makes of an interpolated value: its text, or
    the TypeError of the conversion.  Converting the same value again gives
    the same text, so a function that renders its instance id several times
    is modelled as converting it where it first renders it. *)
Definition interpolate {W} (v : JsValue) : M W string :=
  match ToString v with
  | Some text => ret text
  | None => throw (TypeError "Cannot convert object to primitive value")
  end.

(** ** The Lambda *)

Section Lambda.
Context {W : Type}.
Variable aws : Collaborators W.

Local Open Scope prog_scope.

(** [await new Promise(resolve => setTimeout(resolve, ms))] *)
Definition sleep (ms : Z) : M W unit :=
  promise (SetTimeout ms) (fun w => (timer aws ms w, inr tt)) (fun _ => Elapsed).

Definition sendCommand (params : SSM.SendCommandRequest) : M W SSM.SendCommandResult :=
  promise (SendCommand params) (ssm_sendCommand aws params) CommandSent.

Definition getCommandInvocation (params : SSM.GetCommandInvocationRequest)
  : M W SSM.GetCommandInvocationResult :=
  promise (GetCommandInvocation params) (ssm_getCommandInvocation aws params) Invocation.

Definition putParameter (params : SSM.PutParameterRequest) : M W unit :=
  promise (PutParameter params) (ssm_putParameter aws params) (fun _ => Ack).

Definition describeInstances (instanceIds : list JsValue) : M W EC2.DescribeInstancesResult :=
  promise (DescribeInstances instanceIds) (ec2_describeInstances aws instanceIds) Described.

Definition putMetricAlarm (params : CloudWatch.PutMetricAlarmInput) : M W unit :=
  promise (PutMetricAlarm params) (cloudwatch_putMetricAlarm aws params) (fun _ => Ack).

Definition cloudwatchDeleteAlarms (alarmNames : list string) : M W unit :=
  promise (DeleteAlarms alarmNames) (cloudwatch_deleteAlarms aws alarmNames) (fun _ => Ack).

(** *** getInstanceInfo *)

Definition getInstanceInfo (instanceId : JsValue) : M W InstanceInfo :=
  await result <- describeInstances [instanceId] ;;
  let instance := firstInstance result in
  match instance with
  | Some i =>
      if truthy_field (EC2.InstanceType i) && truthy_field (EC2.ImageId i)
      then ret {| instanceType := or_empty (EC2.InstanceType i);
                  imageId := or_empty (EC2.ImageId i) |}
      else
        await text <- interpolate instanceId ;;
        throw (Error ("Could not find instance information for instance " +:+ text))
  | None =>
      await text <- interpolate instanceId ;;
      throw (Error ("Could not find instance information for instance " +:+ text))
  end.

(** *** waitForCommandCompletion *)

Definition maxAttempts : Z := 30.

(** How one turn of the [while] loop ends: with [return], or at the end of
    the loop body (or [continue]) with the new value of [attempts]. *)
Inductive Turn : Type :=
| TurnReturn
| TurnNext (attempts : Z).

Fixpoint pollLoop (fuel : nat) (instanceId : JsValue) (commandId : string) (attempts : Z)
  : M W unit :=
  if (attempts <? maxAttempts)%Z then
    match fuel with
    | O => uncovered
    | S fuel' =>
        await turn <-
          try_catch
            (await result <- getCommandInvocation
                               {| SSM.gci_CommandId := commandId;
                                  SSM.gci_InstanceId := instanceId |} ;;
             if includes ["Success"; "Complete"] (or_empty (SSM.Status result))
             then ret TurnReturn
             else if includes ["Failed"; "Cancelled"; "TimedOut"]
                              (or_empty (SSM.Status result))
             then throw (Error ("Command failed with status "
                                +:+ render (SSM.Status result) +:+ ": "
                                +:+ render (SSM.StandardErrorContent result)))
             else
               wait sleep 10000 ;;
               ret (TurnNext (attempts + 1)))
            (fun error =>
               if isInvocationDoesNotExist error
               then
                 wait sleep 10000 ;;
                 ret (TurnNext (attempts + 1))
               else throw error) ;;
        match turn with
        | TurnReturn => ret tt
        | TurnNext attempts' => pollLoop fuel' instanceId commandId attempts'
        end
    end
  else
    throw (Error ("Command timed out after " +:+ pretty (maxAttempts * 10)%Z
                  +:+ " seconds")).

Definition waitForCommandCompletion (instanceId : JsValue) (commandId : string)
  : M W unit :=
  let attempts := 0%Z in
  wait sleep 5000 ;;
  pollLoop (Z.to_nat maxAttempts) instanceId commandId attempts.

(** *** installCloudWatchAgent *)

Definition configContent : JsValue :=
  JsObject [
    ("agent", JsObject [
       ("metrics_collection_interval", JsNumber "60");
       ("run_as_user", JsString "root")]);
    ("metrics", JsObject [
       ("metrics_collected", JsObject [
          ("mem", JsObject [
             ("measurement", JsArray [JsString "mem_used_percent"]);
             ("metrics_collection_interval", JsNumber "60")]);
          ("swap", JsObject [
             ("measurement", JsArray [JsString "swap_used_percent"])])]);
       ("append_dimensions", JsObject [
          ("ImageId", JsString "${aws:ImageId}");
          ("InstanceId", JsString "${aws:InstanceId}");
          ("InstanceType", JsString "${aws:InstanceType}")])])].

(** [result.Command?.CommandId], when truthy *)
Definition commandIdOf (result : SSM.SendCommandResult) : option string :=
  commandId ← (command ← SSM.Command result; SSM.CommandId command);
  if truthy_field (Some commandId) then Some commandId else None.

Definition installCloudWatchAgent (instanceId : JsValue) : M W unit :=
  try_catch
    ((* Step 1: install the agent with Run Command *)
     let installParams :=
       {| SSM.DocumentName := "AWS-ConfigureAWSPackage";
          SSM.InstanceIds := [instanceId];
          SSM.Parameters := [("action", ["Install"]);
                             ("name", ["AmazonCloudWatchAgent"])] |} in
     await installResult <- sendCommand installParams ;;
     wait match commandIdOf installResult with
          | Some commandId => waitForCommandCompletion instanceId commandId
          | None => ret tt
          end ;;
     (* Steps 2 and 3: the default configuration, stored as a parameter *)
     await text <- interpolate instanceId ;;
     let parameterName := "/cloudwatch-agent/config/" +:+ text in
     wait putParameter
            {| SSM.Name := parameterName;
               SSM.Type_ := "String";
               SSM.Value := JSON_stringify configContent;
               SSM.Overwrite := true |} ;;
     (* Step 4: configure and start the agent *)
     let configureParams :=
       {| SSM.DocumentName := "AmazonCloudWatch-ManageAgent";
          SSM.InstanceIds := [instanceId];
          SSM.Parameters := [("action", ["configure"]);
                             ("mode", ["ec2"]);
                             ("optionalConfigurationSource", ["ssm"]);
                             ("optionalConfigurationLocation", [parameterName]);
                             ("optionalRestart", ["yes"])] |} in
     await configureResult <- sendCommand configureParams ;;
     match commandIdOf configureResult with
     | Some commandId => waitForCommandCompletion instanceId commandId
     | None => ret tt
     end)
    (fun error => throw error).

(** *** createAlarms and deleteAlarms *)

Definition createAlarms (instanceId : JsValue) (snsTopicArn : string) : M W unit :=
  try_catch
    (await instanceInfo <- getInstanceInfo instanceId ;;
     await text <- interpolate instanceId ;;
     wait putMetricAlarm
            {| CloudWatch.AlarmName := "CPU-High-" +:+ text;
               CloudWatch.MetricName := "CPUUtilization";
               CloudWatch.Namespace := "AWS/EC2";
               CloudWatch.Period := 60;
               CloudWatch.EvaluationPeriods := 1;
               CloudWatch.DatapointsToAlarm := 1;
               CloudWatch.Threshold := 80;
               CloudWatch.ActionsEnabled := true;
               CloudWatch.AlarmActions := [snsTopicArn];
               CloudWatch.ComparisonOperator := "GreaterThanThreshold";
               CloudWatch.TreatMissingData := "missing";
               CloudWatch.Statistic := "Average";
               CloudWatch.Dimensions :=
                 [{| CloudWatch.dim_Name := "InstanceId";
                     CloudWatch.dim_Value := instanceId |}];
               CloudWatch.AlarmDescription :=
                 "CPU utilization is high for instance " +:+ text
                 +:+ " (>80% for 1 minute)" |} ;;
     putMetricAlarm
       {| CloudWatch.AlarmName := "Memory-High-" +:+ text;
          CloudWatch.MetricName := "mem_used_percent";
          CloudWatch.Namespace := "CWAgent";
          CloudWatch.Period := 60;
          CloudWatch.EvaluationPeriods := 1;
          CloudWatch.DatapointsToAlarm := 1;
          CloudWatch.Threshold := 75;
          CloudWatch.ActionsEnabled := true;
          CloudWatch.AlarmActions := [snsTopicArn];
          CloudWatch.ComparisonOperator := "GreaterThanThreshold";
          CloudWatch.TreatMissingData := "missing";
          CloudWatch.Statistic := "Average";
          CloudWatch.Dimensions :=
            [{| CloudWatch.dim_Name := "InstanceId";
                CloudWatch.dim_Value := instanceId |};
             {| CloudWatch.dim_Name := "InstanceType";
                CloudWatch.dim_Value := JsString (instanceType instanceInfo) |};
             {| CloudWatch.dim_Name := "ImageId";
                CloudWatch.dim_Value := JsString (imageId instanceInfo) |}];
          CloudWatch.AlarmDescription :=
            "Memory utilization is high for instance " +:+ text
            +:+ " (>75% for 1 minute)" |})
    (fun error => throw error).

Definition deleteAlarms (instanceId : JsValue) : M W unit :=
  try_catch
    (await text <- interpolate instanceId ;;
     cloudwatchDeleteAlarms ["CPU-High-" +:+ text; "Memory-High-" +:+ text])
    (fun error => throw error).

(** *** handler

    [process.env.SNS_TOPIC_ARN] is the first argument.  After the checks the
    handler logs [`Processing EC2 instance ${instanceId} in state ${state}`],
    which converts both values to text before anything is dispatched. *)

Definition handler (SNS_TOPIC_ARN : option string) (event : JsValue) : M W unit :=
  let snsTopicArn := SNS_TOPIC_ARN in
  if negb (truthy_field snsTopicArn)
  then throw (Error "SNS_TOPIC_ARN environment variable is not set")
  else
    match event with
    | JsUndefined =>
        throw (TypeError "Cannot read properties of undefined (reading 'detail')")
    | JsNull =>
        throw (TypeError "Cannot read properties of null (reading 'detail')")
    | _ =>
      let detail := prop event "detail" in
      if negb (truthy detail) || negb (typeof_object detail)
      then throw (Error "Invalid event structure: missing or invalid detail object")
      else
        let instanceId := prop detail "instance-id" in
        if negb (truthy instanceId)
        then throw (Error "Invalid event structure: missing instance-id")
        else
          let state := prop detail "state" in
          if negb (truthy state)
          then throw (Error "Invalid event structure: missing state")
          else
            wait interpolate instanceId ;;
            wait interpolate state ;;
            try_catch
              (if strict_eq_string state "running" then
                 wait installCloudWatchAgent instanceId ;;
                 createAlarms instanceId (or_empty snsTopicArn)
               else if strict_eq_string state "terminated" then
                 deleteAlarms instanceId
               else ret tt)
              (fun error => throw error)
    end.

End Lambda.

(** ** What the log shows *)

Definition pollCall (instanceId : JsValue) (commandId : string) : Call :=
  GetCommandInvocation {| SSM.gci_CommandId := commandId; SSM.gci_InstanceId := instanceId |}.

Definition is_poll (e : Entry) : bool :=
  match fst e with
  | GetCommandInvocation _ => true
  | _ => false
  end.

Definition polls (l : list Entry) : list Entry := List.filter is_poll l.

(** The dispatches and parameter writes of a run, in order. *)
Definition is_step (e : Entry) : bool :=
  match fst e with
  | SendCommand _ | PutParameter _ => true
  | _ => false
  end.

Definition steps (l : list Entry) : list Call := map fst (List.filter is_step l).

Definition putAlarms (l : list Entry) : list CloudWatch.PutMetricAlarmInput :=
  omap (fun e => match fst e with PutMetricAlarm a => Some a | _ => None end) l.

Definition deletedNames (l : list Entry) : list string :=
  concat (omap (fun e => match fst e with DeleteAlarms names => Some names | _ => None end) l).

(** The statuses the waiter tells apart. *)
Definition terminalSuccess (result : SSM.GetCommandInvocationResult) : bool :=
  includes ["Success"; "Complete"] (or_empty (SSM.Status result)).

Definition terminalFailure (result : SSM.GetCommandInvocationResult) : bool :=
  includes ["Failed"; "Cancelled"; "TimedOut"] (or_empty (SSM.Status result)).

(** The two errors the waiter raises itself. *)
Definition CommandFailed (status detail : option string) : Thrown :=
  Error ("Command failed with status " +:+ render status +:+ ": " +:+ render detail).

Definition CommandTimeout : Thrown := Error "Command timed out after 300 seconds".

(** A poll after which the loop goes round again: a status that is not
    terminal, or the rejection that says the invocation is not there yet. *)
Definition retried (e : Entry) : bool :=
  match snd e with
  | Invocation result => negb (terminalSuccess result) && negb (terminalFailure result)
  | Rejected error => isInvocationDoesNotExist error
  | _ => false
  end.

(** How the run ends at a poll that is not retried. *)
Definition verdict (e : Entry) : Completion unit :=
  match snd e with
  | Invocation result =>
      if terminalSuccess result then Returned tt
      else Raised (CommandFailed (SSM.Status result) (SSM.StandardErrorContent result))
  | Rejected error => Raised error
  | _ => Returned tt
  end.

(** The log of the polling loop entered with [attempts], and how it ends. *)
Inductive Polling (instanceId : JsValue) (commandId : string)
  : Z -> list Entry -> Completion unit -> Prop :=
| Polling_exhausted attempts :
    (maxAttempts <= attempts)%Z ->
    Polling instanceId commandId attempts [] (Raised CommandTimeout)
| Polling_success attempts result :
    (attempts < maxAttempts)%Z ->
    terminalSuccess result = true ->
    Polling instanceId commandId attempts
      [(pollCall instanceId commandId, Invocation result)] (Returned tt)
| Polling_failure attempts result :
    (attempts < maxAttempts)%Z ->
    terminalSuccess result = false ->
    terminalFailure result = true ->
    Polling instanceId commandId attempts
      [(pollCall instanceId commandId, Invocation result)]
      (Raised (CommandFailed (SSM.Status result) (SSM.StandardErrorContent result)))
| Polling_pending attempts result rest res :
    (attempts < maxAttempts)%Z ->
    terminalSuccess result = false ->
    terminalFailure result = false ->
    Polling instanceId commandId (attempts + 1) rest res ->
    Polling instanceId commandId attempts
      ((pollCall instanceId commandId, Invocation result)
         :: (SetTimeout 10000, Elapsed) :: rest) res
| Polling_not_yet attempts error rest res :
    (attempts < maxAttempts)%Z ->
    isInvocationDoesNotExist error = true ->
    Polling instanceId commandId (attempts + 1) rest res ->
    Polling instanceId commandId attempts
      ((pollCall instanceId commandId, Rejected error)
         :: (SetTimeout 10000, Elapsed) :: rest) res
| Polling_error attempts error :
    (attempts < maxAttempts)%Z ->
    isInvocationDoesNotExist error = false ->
    Polling instanceId commandId attempts
      [(pollCall instanceId commandId, Rejected error)] (Raised error).

(** ** A concrete cloud

    Modelled from the spec: the alarm backend, which is not part of this
    repository.  Put is an upsert keyed by the alarm name; delete removes the
    named alarms and is not an error for a name that is absent. *)

Definition store_put (a : CloudWatch.PutMetricAlarmInput)
    (alarms : gmap string CloudWatch.PutMetricAlarmInput)
  : gmap string CloudWatch.PutMetricAlarmInput * (Thrown + unit) :=
  (<[CloudWatch.AlarmName a := a]> alarms, inr tt).

Definition store_delete (names : list string)
    (alarms : gmap string CloudWatch.PutMetricAlarmInput)
  : gmap string CloudWatch.PutMetricAlarmInput * (Thrown + unit) :=
  (foldr delete alarms names, inr tt).

(** A cloud whose world is the alarm store.  Every dispatch is answered with
    [sent], every poll with [polled], every describe with [described]. *)
Definition cloud (sent : SSM.SendCommandResult)
    (polled : Thrown + SSM.GetCommandInvocationResult)
    (described : Thrown + EC2.DescribeInstancesResult)
  : Collaborators (gmap string CloudWatch.PutMetricAlarmInput) :=
  {| timer := fun _ w => w;
     ssm_sendCommand := fun _ w => (w, inr sent);
     ssm_getCommandInvocation := fun _ w => (w, polled);
     ssm_putParameter := fun _ w => (w, inr tt);
     ec2_describeInstances := fun _ w => (w, described);
     cloudwatch_putMetricAlarm := store_put;
     cloudwatch_deleteAlarms := store_delete |}.

Definition sent_with (commandId : string) : SSM.SendCommandResult :=
  {| SSM.Command := Some {| SSM.CommandId := Some commandId |} |}.

Definition sent_without_id : SSM.SendCommandResult := {| SSM.Command := None |}.

Definition polled_status (status : string) : Thrown + SSM.GetCommandInvocationResult :=
  inr {| SSM.Status := Some status; SSM.StandardErrorContent := Some "" |}.

Definition described_as (type image : string) : Thrown + EC2.DescribeInstancesResult :=
  inr {| EC2.Reservations :=
           Some [{| EC2.Instances :=
                      Some [{| EC2.InstanceType := Some type;
                               EC2.ImageId := Some image |}] |}] |}.

Definition happy_cloud : Collaborators (gmap string CloudWatch.PutMetricAlarmInput) :=
  cloud (sent_with "cmd-1") (polled_status "Success") (described_as "t3.micro" "ami-1").

Definition fresh : Run (gmap string CloudWatch.PutMetricAlarmInput) :=
  {| world := ∅; log := [] |}.

(** The state a computation leaves when it is run from [st]. *)
Definition state_after {W A} (m : M W A) (st : Run W) : Run W :=
  match m st with
  | Some (st', _) => st'
  | None => st
  end.

Definition lifecycle_event (instanceId state : JsValue) : JsValue :=
  JsObject [("detail", JsObject [("instance-id", instanceId); ("state", state)])].

(** An event whose state is an object with a [toString] property of its
    own. *)
Definition state_without_text_event : JsValue :=
  lifecycle_event (JsString "i-123") (JsObject [("toString", JsNumber "0")]).

Definition throttled_cloud : Collaborators (gmap string CloudWatch.PutMetricAlarmInput) :=
  cloud (sent_with "cmd-1")
        (inl (AWSError (Some "ThrottlingException") (Some "Rate exceeded")))
        (described_as "t3.micro" "ami-1").

Definition cloud_without_command_id
  : Collaborators (gmap string CloudWatch.PutMetricAlarmInput) :=
  cloud sent_without_id (polled_status "Success") (described_as "t3.micro" "ami-1").

(** A cloud whose world is the number of polls still answered InProgress
    before the command shows as Success. *)
Definition slow_cloud : Collaborators nat :=
  {| timer := fun _ w => w;
     ssm_sendCommand := fun _ w => (w, inr (sent_with "cmd-1"));
     ssm_getCommandInvocation := fun _ w =>
       match w with
       | O => (O, polled_status "Success")
       | S w' => (w', polled_status "InProgress")
       end;
     ssm_putParameter := fun _ w => (w, inr tt);
     ec2_describeInstances := fun _ w => (w, described_as "t3.micro" "ami-1");
     cloudwatch_putMetricAlarm := fun _ w => (w, inr tt);
     cloudwatch_deleteAlarms := fun _ w => (w, inr tt) |}.

(** A cloud in which the invocation never becomes visible. *)
Definition invisible_cloud : Collaborators (gmap string CloudWatch.PutMetricAlarmInput) :=
  cloud (sent_with "cmd-1")
        (inl (AWSError (Some "InvocationDoesNotExist") None))
        (described_as "t3.micro" "ami-1").

(** ** The claims' vocabulary *)

(** One dispatch of the provisioner: send the command and, when the reply
    carries a command id, wait for the command to complete. *)
Definition dispatchAndAwait {W} (aws : Collaborators W) (instanceId : JsValue)
    (params : SSM.SendCommandRequest) : M W unit :=
  (await result <- sendCommand aws params ;;
   match commandIdOf result with
   | Some commandId => waitForCommandCompletion aws instanceId commandId
   | None => ret tt
   end)%prog.

Definition installCommand (instanceId : JsValue) : SSM.SendCommandRequest :=
  {| SSM.DocumentName := "AWS-ConfigureAWSPackage";
     SSM.InstanceIds := [instanceId];
     SSM.Parameters := [("action", ["Install"]); ("name", ["AmazonCloudWatchAgent"])] |}.

Definition agentConfigParameter (text : string) : SSM.PutParameterRequest :=
  {| SSM.Name := "/cloudwatch-agent/config/" +:+ text;
     SSM.Type_ := "String";
     SSM.Value := JSON_stringify configContent;
     SSM.Overwrite := true |}.

Definition configureCommand (instanceId : JsValue) (text : string)
  : SSM.SendCommandRequest :=
  {| SSM.DocumentName := "AmazonCloudWatch-ManageAgent";
     SSM.InstanceIds := [instanceId];
     SSM.Parameters := [("action", ["configure"]);
                        ("mode", ["ec2"]);
                        ("optionalConfigurationSource", ["ssm"]);
                        ("optionalConfigurationLocation",
                         ["/cloudwatch-agent/config/" +:+ text]);
                        ("optionalRestart", ["yes"])] |}.

(** The alarm names, in the specification's words, for the text of an
    instance id. *)
Definition alarmNames (text : string) : list string :=
  ["CPU-High-" +:+ text; "Memory-High-" +:+ text].




(** The errors the handler raises before it calls anyone. *)
Definition validationErrors : list Thrown :=
  [Error "SNS_TOPIC_ARN environment variable is not set";
   Error "Invalid event structure: missing or invalid detail object";
   Error "Invalid event structure: missing instance-id";
   Error "Invalid event structure: missing state"].

(** The parts of the event the handler reads. *)
Definition detailOf (event : JsValue) : JsValue := prop event "detail".
Definition instanceIdOf (event : JsValue) : JsValue := prop (detailOf event) "instance-id".
Definition stateOf (event : JsValue) : JsValue := prop (detailOf event) "state".

(** What stops the handler before it calls anyone, if anything does: the
    check it fails first, or the conversion to text of the instance id and
    the state for its log line. *)
Definition rejection (SNS_TOPIC_ARN : option string) (event : JsValue) : option Thrown :=
  if negb (truthy_field SNS_TOPIC_ARN)
  then Some (Error "SNS_TOPIC_ARN environment variable is not set")
  else match event with
       | JsUndefined =>
           Some (TypeError "Cannot read properties of undefined (reading 'detail')")
       | JsNull =>
           Some (TypeError "Cannot read properties of null (reading 'detail')")
       | _ =>
           if negb (truthy (detailOf event)) || negb (typeof_object (detailOf event))
           then Some (Error "Invalid event structure: missing or invalid detail object")
           else if negb (truthy (instanceIdOf event))
           then Some (Error "Invalid event structure: missing instance-id")
           else if negb (truthy (stateOf event))
           then Some (Error "Invalid event structure: missing state")
           else match ToString (instanceIdOf event), ToString (stateOf event) with
                | Some _, Some _ => None
                | _, _ => Some (TypeError "Cannot convert object to primitive value")
                end
       end.

(** ** Further vocabulary: delays, the provisioner's log, the alarm records *)

(** The milliseconds of delay a log asks the timer for. *)
Definition delays (l : list Entry) : Z :=
  fold_right (fun e acc => match fst e with
                           | SetTimeout ms => (ms + acc)%Z
                           | _ => acc
                           end) 0%Z l.

(** The polls of a log after which the loop went round again. *)
Definition retriedPolls (l : list Entry) : list Entry := List.filter retried (polls l).

(** The polls of a log that were answered with a success status. *)
Definition succeeded (e : Entry) : bool :=
  match snd e with
  | Invocation result => terminalSuccess result
  | _ => false
  end.

(** The dispatches of a log whose reply carried a command id. *)
Definition awaited (e : Entry) : bool :=
  match snd e with
  | CommandSent result => match commandIdOf result with Some _ => true | None => false end
  | _ => false
  end.

(** The log of one dispatch of the provisioner, and how it ends. *)
Inductive Dispatched (instanceId : JsValue) (params : SSM.SendCommandRequest)
  : list Entry -> Completion unit -> Prop :=
| Dispatched_rejected e :
    Dispatched instanceId params [(SendCommand params, Rejected e)] (Raised e)
| Dispatched_without_id result :
    commandIdOf result = None ->
    Dispatched instanceId params [(SendCommand params, CommandSent result)] (Returned tt)
| Dispatched_awaited result commandId rest res :
    commandIdOf result = Some commandId ->
    Polling instanceId commandId 0 rest res ->
    Dispatched instanceId params
      ((SendCommand params, CommandSent result) :: (SetTimeout 5000, Elapsed) :: rest) res.

(** The log of the provisioner for an instance id that renders as [text],
    and how it ends. *)
Inductive Provisioned (instanceId : JsValue) (text : string)
  : list Entry -> Completion unit -> Prop :=
| Provisioned_install_failed l e :
    Dispatched instanceId (installCommand instanceId) l (Raised e) ->
    Provisioned instanceId text l (Raised e)
| Provisioned_write_failed l e :
    Dispatched instanceId (installCommand instanceId) l (Returned tt) ->
    Provisioned instanceId text
      (l ++ [(PutParameter (agentConfigParameter text), Rejected e)]) (Raised e)
| Provisioned_configured l1 l2 res :
    Dispatched instanceId (installCommand instanceId) l1 (Returned tt) ->
    Dispatched instanceId (configureCommand instanceId text) l2 res ->
    Provisioned instanceId text
      (l1 ++ (PutParameter (agentConfigParameter text), Ack) :: l2) res.

(** The two alarms [createAlarms] puts for an instance id that renders as
    [text]. *)
Definition cpuAlarmFor (instanceId : JsValue) (text snsTopicArn : string)
  : CloudWatch.PutMetricAlarmInput :=
  {| CloudWatch.AlarmName := "CPU-High-" +:+ text;
     CloudWatch.MetricName := "CPUUtilization";
     CloudWatch.Namespace := "AWS/EC2";
     CloudWatch.Period := 60;
     CloudWatch.EvaluationPeriods := 1;
     CloudWatch.DatapointsToAlarm := 1;
     CloudWatch.Threshold := 80;
     CloudWatch.ActionsEnabled := true;
     CloudWatch.AlarmActions := [snsTopicArn];
     CloudWatch.ComparisonOperator := "GreaterThanThreshold";
     CloudWatch.TreatMissingData := "missing";
     CloudWatch.Statistic := "Average";
     CloudWatch.Dimensions :=
       [{| CloudWatch.dim_Name := "InstanceId"; CloudWatch.dim_Value := instanceId |}];
     CloudWatch.AlarmDescription :=
       "CPU utilization is high for instance " +:+ text +:+ " (>80% for 1 minute)" |}.

Definition memoryAlarmFor (instanceId : JsValue) (text snsTopicArn : string)
    (instanceInfo : InstanceInfo) : CloudWatch.PutMetricAlarmInput :=
  {| CloudWatch.AlarmName := "Memory-High-" +:+ text;
     CloudWatch.MetricName := "mem_used_percent";
     CloudWatch.Namespace := "CWAgent";
     CloudWatch.Period := 60;
     CloudWatch.EvaluationPeriods := 1;
     CloudWatch.DatapointsToAlarm := 1;
     CloudWatch.Threshold := 75;
     CloudWatch.ActionsEnabled := true;
     CloudWatch.AlarmActions := [snsTopicArn];
     CloudWatch.ComparisonOperator := "GreaterThanThreshold";
     CloudWatch.TreatMissingData := "missing";
     CloudWatch.Statistic := "Average";
     CloudWatch.Dimensions :=
       [{| CloudWatch.dim_Name := "InstanceId"; CloudWatch.dim_Value := instanceId |};
        {| CloudWatch.dim_Name := "InstanceType";
           CloudWatch.dim_Value := JsString (instanceType instanceInfo) |};
        {| CloudWatch.dim_Name := "ImageId";
           CloudWatch.dim_Value := JsString (imageId instanceInfo) |}];
     CloudWatch.AlarmDescription :=
       "Memory utilization is high for instance " +:+ text +:+ " (>75% for 1 minute)" |}.

(** The error [getInstanceInfo] raises itself, for an instance id that
    renders as [text]. *)
Definition LookupError (text : string) : Thrown :=
  Error ("Could not find instance information for instance " +:+ text).

(** ** The stack, as far as the Lambda's behaviour meets it

    From [lib/aws-ec2-monitoring-cdk-stack.ts]: the timeout given to the
    function and the states the EventBridge rule lets through. *)

Module Stack.
(** [cdk.Duration.minutes(n)], in milliseconds *)
Definition Duration_minutes (n : Z) : Z := (n * 60 * 1000)%Z.

(** [timeout: cdk.Duration.minutes(5)] of [EC2MonitoringFunction] *)
Definition functionTimeout : Z := Duration_minutes 5.

(** [eventPattern.detail.state] of [EC2StateChangeRule] *)
Definition ruleStates : list string := ["running"; "terminated"].
End Stack.

(** A cloud that resolves every describe with an instance that has a type
    but an empty image id. *)
Definition imageless_cloud : Collaborators (gmap string CloudWatch.PutMetricAlarmInput) :=
  cloud (sent_with "cmd-1") (polled_status "Success") (described_as "t3.micro" "").

(** A cloud whose polls show the command failed, with no error content. *)
Definition failing_cloud : Collaborators (gmap string CloudWatch.PutMetricAlarmInput) :=
  cloud (sent_with "cmd-1")
        (inr {| SSM.Status := Some "Failed"; SSM.StandardErrorContent := None |})
        (described_as "t3.micro" "ami-1").

(** A cloud whose world is the number of polls still answered without any
    status before the command shows as Success. *)
Definition vague_cloud : Collaborators nat :=
  {| timer := fun _ w => w;
     ssm_sendCommand := fun _ w => (w, inr (sent_with "cmd-1"));
     ssm_getCommandInvocation := fun _ w =>
       match w with
       | O => (O, polled_status "Success")
       | S w' => (w', inr {| SSM.Status := None; SSM.StandardErrorContent := None |})
       end;
     ssm_putParameter := fun _ w => (w, inr tt);
     ec2_describeInstances := fun _ w => (w, described_as "t3.micro" "ami-1");
     cloudwatch_putMetricAlarm := fun _ w => (w, inr tt);
     cloudwatch_deleteAlarms := fun _ w => (w, inr tt) |}.

(** A cloud whose alarm store accepts the CPU alarm and rejects the memory
    alarm, leaving the store as it is. *)
Definition memory_rejecting_cloud
  : Collaborators (gmap string CloudWatch.PutMetricAlarmInput) :=
  {| timer := fun _ w => w;
     ssm_sendCommand := fun _ w => (w, inr (sent_with "cmd-1"));
     ssm_getCommandInvocation := fun _ w => (w, polled_status "Success");
     ssm_putParameter := fun _ w => (w, inr tt);
     ec2_describeInstances := fun _ w => (w, described_as "t3.micro" "ami-1");
     cloudwatch_putMetricAlarm := fun a w =>
       if String.eqb (CloudWatch.Namespace a) "CWAgent"
       then (w, inl (AWSError (Some "LimitExceeded") None))
       else store_put a w;
     cloudwatch_deleteAlarms := store_delete |}.

(** ** Contracts of an alarm backend and of a describe call beside it

    Modelled from the spec: put is an upsert, or is rejected and leaves the
    store as it was; describing instances does not touch the alarm store,
    and its answer does not depend on it. *)

Definition upserts_or_rejects
    (aws : Collaborators (gmap string CloudWatch.PutMetricAlarmInput)) : Prop :=
  forall a w,
    cloudwatch_putMetricAlarm aws a w = store_put a w
    \/ exists e, cloudwatch_putMetricAlarm aws a w = (w, inl e).

Definition describe_leaves_store
    (aws : Collaborators (gmap string CloudWatch.PutMetricAlarmInput)) : Prop :=
  forall ids w, fst (ec2_describeInstances aws ids w) = w.

Definition describe_is_stable
    (aws : Collaborators (gmap string CloudWatch.PutMetricAlarmInput)) : Prop :=
  forall ids w w', snd (ec2_describeInstances aws ids w) = snd (ec2_describeInstances aws ids w').

(** What [getInstanceInfo] makes of the answer to its describe call, for an
    instance id that renders as [text]. *)
Definition resolved (text : string) (reply : Thrown + EC2.DescribeInstancesResult)
  : Completion InstanceInfo :=
  match reply with
  | inl e => Raised e
  | inr result =>
      match firstInstance result with
      | Some i =>
          if truthy_field (EC2.InstanceType i) && truthy_field (EC2.ImageId i)
          then Returned {| instanceType := or_empty (EC2.InstanceType i);
                           imageId := or_empty (EC2.ImageId i) |}
          else Raised (LookupError text)
      | None => Raised (LookupError text)
      end
  end.

(** The describe calls of a log. *)
Definition is_describe (e : Entry) : bool :=
  match fst e with
  | DescribeInstances _ => true
  | _ => false
  end.

Definition describes (l : list Entry) : list Entry := List.filter is_describe l.

(** Where a value raised by the waiter or by the provisioner can come from:
    it is one of the two errors the waiter makes itself, or it is the
    rejection of the last call of the log. *)
Definition Provenance (e : Thrown) (l : list Entry) : Prop :=
  e = CommandTimeout
  \/ (exists status detail, e = CommandFailed status detail)
  \/ (exists before c, l = before ++ [(c, Rejected e)]).

(** What the agent configuration collects for memory, and the dimensions it
    appends. *)
Definition itemsOf (v : JsValue) : list JsValue :=
  match v with
  | JsArray items => items
  | _ => []
  end.

Definition keysOf (v : JsValue) : list string :=
  match v with
  | JsObject fields => map fst fields
  | _ => []
  end.

Definition collectedMemoryMetrics (config : JsValue) : list JsValue :=
  itemsOf (prop (prop (prop (prop config "metrics") "metrics_collected") "mem") "measurement").

Definition appendedDimensions (config : JsValue) : list string :=
  keysOf (prop (prop config "metrics") "append_dimensions").

(** The log of [createAlarms] for an instance id that renders as [text],
    and how it ends. *)
Inductive Reconciled (instanceId : JsValue) (text snsTopicArn : string)
  : list Entry -> Completion unit -> Prop :=
| Reconciled_describe_rejected e :
    Reconciled instanceId text snsTopicArn
      [(DescribeInstances [instanceId], Rejected e)] (Raised e)
| Reconciled_not_found result :
    Reconciled instanceId text snsTopicArn
      [(DescribeInstances [instanceId], Described result)]
      (Raised (LookupError text))
| Reconciled_cpu_rejected reply e :
    Reconciled instanceId text snsTopicArn
      [(DescribeInstances [instanceId], reply);
       (PutMetricAlarm (cpuAlarmFor instanceId text snsTopicArn), Rejected e)] (Raised e)
| Reconciled_memory_rejected reply info e :
    Reconciled instanceId text snsTopicArn
      [(DescribeInstances [instanceId], reply);
       (PutMetricAlarm (cpuAlarmFor instanceId text snsTopicArn), Ack);
       (PutMetricAlarm (memoryAlarmFor instanceId text snsTopicArn info), Rejected e)]
      (Raised e)
| Reconciled_both reply info :
    Reconciled instanceId text snsTopicArn
      [(DescribeInstances [instanceId], reply);
       (PutMetricAlarm (cpuAlarmFor instanceId text snsTopicArn), Ack);
       (PutMetricAlarm (memoryAlarmFor instanceId text snsTopicArn info), Ack)]
      (Returned tt).

(** The log of the handler, and how it ends. *)
Inductive Handled (SNS_TOPIC_ARN : option string) (event : JsValue)
  : list Entry -> Completion unit -> Prop :=
| Handled_rejected e :
    rejection SNS_TOPIC_ARN event = Some e ->
    Handled SNS_TOPIC_ARN event [] (Raised e)
| Handled_ignored :
    rejection SNS_TOPIC_ARN event = None ->
    stateOf event <> JsString "running" ->
    stateOf event <> JsString "terminated" ->
    Handled SNS_TOPIC_ARN event [] (Returned tt)
| Handled_deleted text :
    rejection SNS_TOPIC_ARN event = None ->
    stateOf event = JsString "terminated" ->
    ToString (instanceIdOf event) = Some text ->
    Handled SNS_TOPIC_ARN event [(DeleteAlarms (alarmNames text), Ack)] (Returned tt)
| Handled_delete_rejected text e :
    rejection SNS_TOPIC_ARN event = None ->
    stateOf event = JsString "terminated" ->
    ToString (instanceIdOf event) = Some text ->
    Handled SNS_TOPIC_ARN event [(DeleteAlarms (alarmNames text), Rejected e)] (Raised e)
| Handled_provision_failed text l e :
    rejection SNS_TOPIC_ARN event = None ->
    stateOf event = JsString "running" ->
    ToString (instanceIdOf event) = Some text ->
    Provisioned (instanceIdOf event) text l (Raised e) ->
    Handled SNS_TOPIC_ARN event l (Raised e)
| Handled_provisioned text l1 l2 res :
    rejection SNS_TOPIC_ARN event = None ->
    stateOf event = JsString "running" ->
    ToString (instanceIdOf event) = Some text ->
    Provisioned (instanceIdOf event) text l1 (Returned tt) ->
    Reconciled (instanceIdOf event) text (or_empty SNS_TOPIC_ARN) l2 res ->
    Handled SNS_TOPIC_ARN event (l1 ++ l2) res.

(** How a call of a run refers to the instance: by the id as it came, or
    by its text. *)
Definition refers_to (instanceId : JsValue) (text : string) (c : Call) : Prop :=
  match c with
  | SetTimeout _ => True
  | SendCommand p => SSM.InstanceIds p = [instanceId]
  | GetCommandInvocation q => SSM.gci_InstanceId q = instanceId
  | PutParameter w => SSM.Name w = "/cloudwatch-agent/config/" +:+ text
  | DescribeInstances ids => ids = [instanceId]
  | PutMetricAlarm a =>
      In {| CloudWatch.dim_Name := "InstanceId"; CloudWatch.dim_Value := instanceId |}
         (CloudWatch.Dimensions a)
      /\ In (CloudWatch.AlarmName a) (alarmNames text)
  | DeleteAlarms names => names = alarmNames text
  end.


(** * Proofs *)

(** ** Runs on the concrete clouds *)

Example stringify_sample :
  JSON_stringify (JsArray [JsNumber "60"; JsUndefined; JsBool true; JsObject []])
  = Some "[60,null,true,{}]".
Proof. reflexivity. Qed.

(** The stored configuration is the JSON text of [configContent]: 339
    characters, from the opening brace to the three closing ones. *)
Example configuration_text :
  exists text,
    JSON_stringify configContent = Some text
    /\ String.length text = 339
    /\ String.substring 0 1 text = "{"
    /\ String.substring 11 27 text = "metrics_collection_interval"
    /\ String.substring 336 3 text = "}}}".
Proof. eexists. repeat split; vm_compute; reflexivity. Qed.

(** An array renders as its items joined by commas, the empty array as the
    empty string; an object that has a [toString] property of its own has no
    text. *)
Example ToString_samples :
  ToString (JsArray [JsNumber "1"; JsNull; JsArray [JsString "a"; JsBool true]])
  = Some "1,,a,true"
  /\ ToString (JsArray []) = Some ""
  /\ ToString (JsObject [("state", JsString "running")]) = Some "[object Object]"
  /\ ToString (JsObject [("toString", JsNumber "0")]) = None
  /\ ToString (JsArray [JsObject [("toString", JsNull)]]) = None.
Proof. repeat split. Qed.

(** Scenario A: a running instance is provisioned and gets both alarms. *)
Example scenario_running :
  match handler happy_cloud (Some "topic")
          (lifecycle_event (JsString "i-123") (JsString "running")) fresh with
  | Some (st', res) =>
      res = Returned tt
      /\ steps (log st') = [SendCommand (installCommand (JsString "i-123"));
                            PutParameter (agentConfigParameter "i-123");
                            SendCommand (configureCommand (JsString "i-123") "i-123")]
      /\ length (polls (log st')) = 2
      /\ CloudWatch.Threshold <$> world st' !! "CPU-High-i-123" = Some 80%Z
      /\ CloudWatch.Threshold <$> world st' !! "Memory-High-i-123" = Some 75%Z
  | None => False
  end.
Proof. vm_compute. repeat split. Qed.

(** Scenario B: a failed install stops the run before the configure command
    and before any alarm. *)
Example scenario_install_failed :
  match handler (cloud (sent_with "cmd-1") (polled_status "Failed")
                       (described_as "t3.micro" "ami-1"))
          (Some "topic") (lifecycle_event (JsString "i-123") (JsString "running")) fresh with
  | Some (st', res) =>
      res = Raised (CommandFailed (Some "Failed") (Some ""))
      /\ steps (log st') = [SendCommand (installCommand (JsString "i-123"))]
      /\ putAlarms (log st') = []
  | None => False
  end.
Proof. vm_compute. repeat split. Qed.

(** Scenario C: a terminated instance has its alarms deleted, nothing else. *)
Example scenario_terminated :
  match handler happy_cloud (Some "topic")
          (lifecycle_event (JsString "i-999") (JsString "terminated")) fresh with
  | Some (st', res) =>
      res = Returned tt
      /\ map fst (log st') = [DeleteAlarms ["CPU-High-i-999"; "Memory-High-i-999"]]
  | None => False
  end.
Proof. vm_compute. repeat split. Qed.

(** Scenario D: any other state is a no-op. *)
Example scenario_pending :
  handler happy_cloud (Some "topic")
    (lifecycle_event (JsString "i-123") (JsString "pending")) fresh
  = Some (fresh, Returned tt).
Proof. reflexivity. Qed.

(** An instance id that is a number is passed on as it is and named by its
    digits. *)
Example scenario_numeric_id :
  match handler happy_cloud (Some "topic")
          (lifecycle_event (JsNumber "123") (JsString "running")) fresh with
  | Some (st', res) =>
      res = Returned tt
      /\ steps (log st') = [SendCommand (installCommand (JsNumber "123"));
                            PutParameter (agentConfigParameter "123");
                            SendCommand (configureCommand (JsNumber "123") "123")]
      /\ (CloudWatch.Dimensions <$> world st' !! "CPU-High-123")
         = Some [{| CloudWatch.dim_Name := "InstanceId";
                    CloudWatch.dim_Value := JsNumber "123" |}]
  | None => False
  end.
Proof. vm_compute. repeat split. Qed.

(** A state that has no text stops the handler at its log line. *)
Example scenario_unprintable_state :
  handler happy_cloud (Some "topic")
    (lifecycle_event (JsString "i-123") (JsObject [("toString", JsNumber "0")])) fresh
  = Some (fresh, Raised (TypeError "Cannot convert object to primitive value")).
Proof. reflexivity. Qed.

(** Two polls see the command in progress, the third sees it succeed. *)
Example waiter_slow_success :
  match waitForCommandCompletion slow_cloud (JsString "i-123") "cmd-1"
          {| world := 2; log := [] |} with
  | Some (st', res) =>
      res = Returned tt
      /\ map fst (log st')
         = [SetTimeout 5000; pollCall (JsString "i-123") "cmd-1"; SetTimeout 10000;
            pollCall (JsString "i-123") "cmd-1"; SetTimeout 10000;
            pollCall (JsString "i-123") "cmd-1"]
  | None => False
  end.
Proof. vm_compute. repeat split. Qed.

(** An invocation that never becomes visible uses up the 30 attempts. *)
Example waiter_never_visible :
  match waitForCommandCompletion invisible_cloud (JsString "i-123") "cmd-1" fresh with
  | Some (st', res) => res = Raised CommandTimeout /\ length (polls (log st')) = 30
  | None => False
  end.
Proof. vm_compute. repeat split. Qed.

(** ** The monad *)

Section MonadFacts.
Context {W : Type}.

Lemma try_catch_rethrow {A} (m : M W A) (st : Run W) :
  try_catch m (fun error => throw error) st = m st.
Proof.
  unfold try_catch, throw. destruct (m st) as [[st' [a|e]]|]; reflexivity.
Qed.

Lemma bind_returned {A B} (m : M W A) (k : A -> M W B) st st' a :
  m st = Some (st', Returned a) -> bind m k st = k a st'.
Proof. intros H. unfold bind. now rewrite H. Qed.

Lemma bind_raised {A B} (m : M W A) (k : A -> M W B) st st' e :
  m st = Some (st', Raised e) -> bind m k st = Some (st', Raised e).
Proof. intros H. unfold bind. now rewrite H. Qed.

(** A promise adds exactly one entry to the log. *)
Lemma promise_inv {A} c (op : W -> W * (Thrown + A)) reply st st' res :
  promise c op reply st = Some (st', res) ->
  (exists e, op (world st) = (world st', inl e) /\ res = Raised e
             /\ log st' = log st ++ [(c, Rejected e)])
  \/ (exists a, op (world st) = (world st', inr a) /\ res = Returned a
                /\ log st' = log st ++ [(c, reply a)]).
Proof.
  unfold promise. destruct (op (world st)) as [w' [e|a]]; intros [= <- <-]; eauto 6.
Qed.

Lemma promise_total {A} c (op : W -> W * (Thrown + A)) reply st :
  exists st' res, promise c op reply st = Some (st', res).
Proof. unfold promise. destruct (op (world st)) as [w' [e|a]]; eauto. Qed.
End MonadFacts.

(** ** The polling loop *)

Section Waiter.
Context {W : Type}.
Variable aws : Collaborators W.
Variable instanceId : JsValue.
Variable commandId : string.

Lemma sleep_eq ms (st : Run W) :
  sleep aws ms st
  = Some ({| world := timer aws ms (world st);
             log := log st ++ [(SetTimeout ms, Elapsed)] |}, Returned tt).
Proof. reflexivity. Qed.

(** One turn of the loop, by the reply to its poll. *)
Lemma pollLoop_turn fuel attempts (st : Run W) :
  (attempts < maxAttempts)%Z ->
  let '(w', reply) :=
    ssm_getCommandInvocation aws
      {| SSM.gci_CommandId := commandId; SSM.gci_InstanceId := instanceId |} (world st) in
  let polled r := {| world := w'; log := log st ++ [(pollCall instanceId commandId, r)] |} in
  let slept r := {| world := timer aws 10000 w';
                    log := (log st ++ [(pollCall instanceId commandId, r)])
                             ++ [(SetTimeout 10000, Elapsed)] |} in
  pollLoop aws (S fuel) instanceId commandId attempts st =
  match reply with
  | inr result =>
      if terminalSuccess result then Some (polled (Invocation result), Returned tt)
      else if terminalFailure result then
        Some (polled (Invocation result),
              Raised (CommandFailed (SSM.Status result) (SSM.StandardErrorContent result)))
      else pollLoop aws fuel instanceId commandId (attempts + 1) (slept (Invocation result))
  | inl error =>
      if isInvocationDoesNotExist error
      then pollLoop aws fuel instanceId commandId (attempts + 1) (slept (Rejected error))
      else Some (polled (Rejected error), Raised error)
  end.
Proof.
  intros Hlt. apply Z.ltb_lt in Hlt.
  destruct (ssm_getCommandInvocation aws _ (world st)) as [w' reply] eqn:Hreply.
  cbn [pollLoop]. rewrite Hlt.
  unfold bind at 1, try_catch, bind at 1, getCommandInvocation, promise.
  rewrite Hreply.
  destruct reply as [error|result]; cbv beta iota zeta.
  - destruct (isInvocationDoesNotExist error); reflexivity.
  - unfold terminalSuccess, terminalFailure.
    destruct (includes ["Success"; "Complete"] (or_empty (SSM.Status result)));
      [reflexivity|].
    destruct (includes ["Failed"; "Cancelled"; "TimedOut"] (or_empty (SSM.Status result)));
      reflexivity.
Qed.

Lemma pollLoop_exhausted fuel attempts (st : Run W) :
  (maxAttempts <= attempts)%Z ->
  pollLoop aws fuel instanceId commandId attempts st = Some (st, Raised CommandTimeout).
Proof.
  intros Hge. apply Z.ltb_ge in Hge.
  destruct fuel; cbn [pollLoop]; rewrite Hge; reflexivity.
Qed.

(** With fuel for the attempts that are left the loop ends, and its log
    is one the relation [Polling] describes. *)
Lemma pollLoop_Polling fuel : forall attempts (st : Run W),
  (maxAttempts - attempts <= Z.of_nat fuel)%Z ->
  exists st' res new,
    pollLoop aws fuel instanceId commandId attempts st = Some (st', res)
    /\ log st' = log st ++ new
    /\ Polling instanceId commandId attempts new res.
Proof.
  induction fuel as [|fuel IH]; intros attempts st Hfuel.
  - exists st, (Raised CommandTimeout), [].
    split; [apply pollLoop_exhausted; lia|].
    split; [now rewrite app_nil_r|]. constructor. lia.
  - destruct (Z.lt_ge_cases attempts maxAttempts) as [Hlt|Hge].
    2:{ exists st, (Raised CommandTimeout), [].
        split; [now apply pollLoop_exhausted|].
        split; [now rewrite app_nil_r|]. now constructor. }
    pose proof (pollLoop_turn fuel attempts st Hlt) as Hturn.
    destruct (ssm_getCommandInvocation aws _ (world st)) as [w' [error|result]];
      cbv beta iota zeta in Hturn.
    + destruct (isInvocationDoesNotExist error) eqn:Hcode.
      * edestruct (IH (attempts + 1)%Z) as (st' & res & new & Hrun & Hlog & Hpoll);
          [lia|rewrite Hrun in Hturn].
        eexists st', res, (_ :: _ :: new). split; [exact Hturn|].
        split; [rewrite Hlog; cbn; now rewrite <- !app_assoc|].
        now apply Polling_not_yet.
      * eexists _, _, [_]. split; [exact Hturn|]. split; [reflexivity|].
        now apply Polling_error.
    + destruct (terminalSuccess result) eqn:Hok.
      { eexists _, _, [_]. split; [exact Hturn|]. split; [reflexivity|].
        now apply Polling_success. }
      destruct (terminalFailure result) eqn:Hko.
      { eexists _, _, [_]. split; [exact Hturn|]. split; [reflexivity|].
        now apply Polling_failure. }
      edestruct (IH (attempts + 1)%Z) as (st' & res & new & Hrun & Hlog & Hpoll);
        [lia|rewrite Hrun in Hturn].
      eexists st', res, (_ :: _ :: new). split; [exact Hturn|].
      split; [rewrite Hlog; cbn; now rewrite <- !app_assoc|].
      now apply Polling_pending.
Qed.

Lemma waitForCommandCompletion_Polling (st : Run W) :
  exists st' res new,
    waitForCommandCompletion aws instanceId commandId st = Some (st', res)
    /\ log st' = log st ++ (SetTimeout 5000, Elapsed) :: new
    /\ Polling instanceId commandId 0 new res.
Proof.
  unfold waitForCommandCompletion.
  rewrite (bind_returned _ _ _ _ _ (sleep_eq 5000 st)).
  edestruct (pollLoop_Polling (Z.to_nat maxAttempts) 0%Z)
    as (st' & res & new & Hrun & Hlog & Hpoll);
    [|exists st', res, new; split; [exact Hrun|split; [|exact Hpoll]]].
  - rewrite Z2Nat.id; unfold maxAttempts; lia.
  - rewrite Hlog. cbn. now rewrite <- app_assoc.
Qed.
End Waiter.

(** ** What a polling log looks like *)

Lemma terminal_disjoint result :
  terminalFailure result = true -> terminalSuccess result = false.
Proof.
  unfold terminalFailure, terminalSuccess, includes. cbn [existsb].
  rewrite !orb_false_r, !orb_true_iff, !String.eqb_eq.
  intros [-> | [-> | ->]]; reflexivity.
Qed.

Lemma terminalSuccess_status result :
  terminalSuccess result = true <->
  SSM.Status result = Some "Success" \/ SSM.Status result = Some "Complete".
Proof.
  unfold terminalSuccess, includes, or_empty. cbn [existsb].
  rewrite orb_false_r, orb_true_iff, !String.eqb_eq.
  destruct (SSM.Status result) as [s|]; cbn; split;
    intros [H|H]; try discriminate; try (inversion H; subst); auto.
Qed.

Lemma terminalFailure_status result :
  terminalFailure result = true <->
  SSM.Status result = Some "Failed" \/ SSM.Status result = Some "Cancelled"
  \/ SSM.Status result = Some "TimedOut".
Proof.
  unfold terminalFailure, includes, or_empty. cbn [existsb].
  rewrite orb_false_r, !orb_true_iff, !String.eqb_eq.
  destruct (SSM.Status result) as [s|]; cbn; split;
    intros [H|[H|H]]; try discriminate; try (inversion H; subst); auto.
Qed.


Section PollingFacts.
Variable instanceId : JsValue.
Variable commandId : string.
Local Abbreviation Polling := (Polling instanceId commandId).

Lemma Polling_entries attempts l res :
  Polling attempts l res ->
  Forall (fun e => fst e = pollCall instanceId commandId
                   \/ e = (SetTimeout 10000, Elapsed)) l.
Proof.
  induction 1; repeat first [apply Forall_nil_2 | apply Forall_cons_2];
    cbn; auto.
Qed.

Lemma Polling_budget attempts l res :
  Polling attempts l res ->
  (Z.of_nat (length (polls l)) <= Z.max 0 (maxAttempts - attempts))%Z.
Proof.
  induction 1 as [a Ha|a r Ha Hok|a r Ha Hok Hko|a r rest res Ha Hok Hko Hrest IH
                 |a err rest res Ha Herr Hrest IH|a err Ha Herr];
    cbn [polls List.filter is_poll fst pollCall length];
    try fold (polls rest); lia.
Qed.

(** Every poll of the log is either retried after the interval, or the
    last entry, where it decides the result. *)
Lemma Polling_split attempts l res :
  Polling attempts l res ->
  forall before e after,
    l = before ++ e :: after -> is_poll e = true ->
    (retried e = true /\ exists rest, after = (SetTimeout 10000, Elapsed) :: rest)
    \/ (retried e = false /\ after = [] /\ res = verdict e).
Proof.
  induction 1 as [a Ha|a r Ha Hok|a r Ha Hok Hko|a r rest res Ha Hok Hko Hrest IH
                 |a err rest res Ha Herr Hrest IH|a err Ha Herr];
    intros before e after Heq Hpoll.
  - destruct before; discriminate.
  - destruct before as [|x [|y before]]; try discriminate.
    injection Heq as <- <-. right. unfold retried, verdict. cbn [snd]. now rewrite Hok.
  - destruct before as [|x [|y before]]; try discriminate.
    injection Heq as <- <-. right. unfold retried, verdict. cbn [snd]. now rewrite Hok, Hko.
  - destruct before as [|x [|y before]].
    + injection Heq as <- <-. left. unfold retried. cbn [snd]. rewrite Hok, Hko. eauto.
    + injection Heq as _ <- _. discriminate.
    + injection Heq as _ _ Heq. eauto.
  - destruct before as [|x [|y before]].
    + injection Heq as <- <-. left. unfold retried. cbn [snd]. eauto.
    + injection Heq as _ <- _. discriminate.
    + injection Heq as _ _ Heq. eauto.
  - destruct before as [|x [|y before]]; try discriminate.
    injection Heq as <- <-. right. unfold retried, verdict. cbn [snd]. now rewrite Herr.
Qed.


(** When every poll was retried the budget is spent and the run times out. *)
Lemma Polling_timeout attempts l res :
  Polling attempts l res ->
  Forall (fun e => retried e = true) (polls l) ->
  res = Raised CommandTimeout
  /\ Z.of_nat (length (polls l)) = Z.max 0 (maxAttempts - attempts).
Proof.
  induction 1 as [a Ha|a r Ha Hok|a r Ha Hok Hko|a r rest res Ha Hok Hko Hrest IH
                 |a err rest res Ha Herr Hrest IH|a err Ha Herr];
    cbn [polls List.filter is_poll fst pollCall length]; intros Hall.
  - split; [reflexivity|lia].
  - apply Forall_cons_1 in Hall as [Hr _]. unfold retried in Hr. cbn [snd] in Hr.
    rewrite Hok in Hr. discriminate.
  - apply Forall_cons_1 in Hall as [Hr _]. unfold retried in Hr. cbn [snd] in Hr.
    rewrite Hko, andb_false_r in Hr. discriminate.
  - apply Forall_cons_1 in Hall as [_ Hall]. destruct (IH Hall) as [-> Hlen].
    split; [reflexivity|]. fold (polls rest). lia.
  - apply Forall_cons_1 in Hall as [_ Hall]. destruct (IH Hall) as [-> Hlen].
    split; [reflexivity|]. fold (polls rest). lia.
  - apply Forall_cons_1 in Hall as [Hr _]. unfold retried in Hr. cbn [snd] in Hr.
    congruence.
Qed.

Lemma Polling_steps attempts l res :
  Polling attempts l res -> steps l = [].
Proof. induction 1; cbn; auto. Qed.
End PollingFacts.

(** ** Retried polls *)

Section PollingRetries.
Variable instanceId : JsValue.
Variable commandId : string.


End PollingRetries.

(** ** The Remote Command Waiter *)







(** ** The Agent Provisioner *)

Lemma steps_app l1 l2 : steps (l1 ++ l2) = steps l1 ++ steps l2.
Proof. unfold steps. now rewrite List.filter_app, map_app. Qed.

Section Provisioner.
Context {W : Type}.
Variable aws : Collaborators W.
Variable instanceId : JsValue.
Variable text : string.
Hypothesis Htext : ToString instanceId = Some text.

(** A dispatch sends its command once, whatever happens next. *)
Lemma dispatchAndAwait_log params (st : Run W) :
  exists st' res new,
    dispatchAndAwait aws instanceId params st = Some (st', res)
    /\ log st' = log st ++ new
    /\ steps new = [SendCommand params].
Proof.
  unfold dispatchAndAwait, bind.
  destruct (promise_total (SendCommand params) (ssm_sendCommand aws params)
              CommandSent st) as (st1 & r1 & Hsend).
  fold (sendCommand aws params) in Hsend. rewrite Hsend.
  apply promise_inv in Hsend as [(e & _ & -> & Hlog)|(result & _ & -> & Hlog)].
  - exists st1, (Raised e), [(SendCommand params, Rejected e)]. auto.
  - destruct (commandIdOf result) as [commandId|].
    + destruct (waitForCommandCompletion_Polling aws instanceId commandId st1)
        as (st' & res & new & Hrun & Hlog' & Hpoll).
      exists st', res,
        ((SendCommand params, CommandSent result) :: (SetTimeout 5000, Elapsed) :: new).
      split; [exact Hrun|]. split.
      * rewrite Hlog', Hlog. now rewrite <- app_assoc.
      * change (steps ([(SendCommand params, CommandSent result);
                        (SetTimeout 5000, Elapsed)] ++ new) = [SendCommand params]).
        rewrite steps_app, (Polling_steps _ _ _ _ _ Hpoll). reflexivity.
    + exists st1, (Returned tt), [(SendCommand params, CommandSent result)]. auto.
Qed.

Lemma installCloudWatchAgent_eq (st : Run W) :
  installCloudWatchAgent aws instanceId st
  = (wait dispatchAndAwait aws instanceId (installCommand instanceId) ;;
     wait putParameter aws (agentConfigParameter text) ;;
     dispatchAndAwait aws instanceId (configureCommand instanceId text))%prog st.
Proof.
  unfold installCloudWatchAgent. rewrite try_catch_rethrow.
  unfold dispatchAndAwait, installCommand, agentConfigParameter, configureCommand, bind,
    interpolate.
  rewrite Htext.
  destruct (sendCommand aws _ st) as [[st1 [r1|e1]]|]; [|reflexivity..].
  destruct (match commandIdOf r1 with
            | Some commandId => waitForCommandCompletion aws instanceId commandId
            | None => ret tt
            end st1) as [[st2 [[]|e2]]|]; reflexivity.
Qed.

(** Every run of the provisioner ends, and the dispatches and the write it
    made are the first so many of its three steps. *)
Lemma installCloudWatchAgent_run (st : Run W) :
  exists st' res new,
    installCloudWatchAgent aws instanceId st = Some (st', res)
    /\ log st' = log st ++ new
    /\ steps new `prefix_of` [SendCommand (installCommand instanceId);
                              PutParameter (agentConfigParameter text);
                              SendCommand (configureCommand instanceId text)]
    /\ (res = Returned tt ->
        steps new = [SendCommand (installCommand instanceId);
                     PutParameter (agentConfigParameter text);
                     SendCommand (configureCommand instanceId text)]).
Proof.
rewrite installCloudWatchAgent_eq.
destruct (dispatchAndAwait_log (installCommand instanceId) st)
  as (s1 & r1 & new1 & H1 & Hlog1 & Hsteps1).
destruct r1 as [[]|e1].
2:{ exists s1, (Raised e1), new1. rewrite (bind_raised _ _ _ _ _ H1).
    split; [reflexivity|]. split; [exact Hlog1|]. rewrite Hsteps1.
    split; [now eexists|discriminate]. }
rewrite (bind_returned _ _ _ _ _ H1).
destruct (promise_total (PutParameter (agentConfigParameter text))
            (ssm_putParameter aws (agentConfigParameter text))
            (fun _ => Ack) s1) as (s2 & r2 & H2).
fold (putParameter aws (agentConfigParameter text)) in H2.
pose proof H2 as H2'.
apply promise_inv in H2' as [(e & _ & -> & Hlog2)|([] & _ & -> & Hlog2)].
{ exists s2, (Raised e), (new1 ++ [(PutParameter (agentConfigParameter text), Rejected e)]).
  rewrite (bind_raised _ _ _ _ _ H2).
  split; [reflexivity|]. split; [rewrite Hlog2, Hlog1; now rewrite <- app_assoc|].
  rewrite steps_app, Hsteps1. split; [now eexists|discriminate]. }
rewrite (bind_returned _ _ _ _ _ H2).
destruct (dispatchAndAwait_log (configureCommand instanceId text) s2)
  as (s3 & r3 & new3 & H3 & Hlog3 & Hsteps3).
exists s3, r3,
  (new1 ++ [(PutParameter (agentConfigParameter text), Ack)] ++ new3).
split; [exact H3|].
split; [rewrite Hlog3, Hlog2, Hlog1; now rewrite <- !app_assoc|].
rewrite !steps_app, Hsteps1, Hsteps3. split; [now exists []|reflexivity].
Qed.
End Provisioner.

(** C5, as amended: the provisioner is the sequence of three steps, the
    install dispatch, the overwriting write of the configuration under
    /cloudwatch-agent/config/<instanceId>, and the configure dispatch, where
    a dispatch sends its command and waits for it through the waiter when the
    reply carries a non-empty command id, and goes on without waiting when it
    carries none.  A step that raises ends the run with that error and the
    state it left; no step is made twice. *)
Theorem provision_sequence {W} (aws : Collaborators W) (instanceId : string)
    (st : Run W) :
  let install :=
    dispatchAndAwait aws (JsString instanceId) (installCommand (JsString instanceId)) in
  let write := putParameter aws (agentConfigParameter instanceId) in
  let configure :=
    dispatchAndAwait aws (JsString instanceId)
      (configureCommand (JsString instanceId) instanceId) in
  SSM.Name (agentConfigParameter instanceId) = "/cloudwatch-agent/config/" +:+ instanceId
  /\ SSM.Overwrite (agentConfigParameter instanceId) = true
  /\ (forall params s s1 result,
        sendCommand aws params s = Some (s1, Returned result) ->
        dispatchAndAwait aws (JsString instanceId) params s
        = match commandIdOf result with
          | Some commandId => waitForCommandCompletion aws (JsString instanceId) commandId s1
          | None => Some (s1, Returned tt)
          end)
  /\ (forall s1 e,
        install st = Some (s1, Raised e) ->
        installCloudWatchAgent aws (JsString instanceId) st = Some (s1, Raised e))
  /\ (forall s1 s2 e,
        install st = Some (s1, Returned tt) ->
        write s1 = Some (s2, Raised e) ->
        installCloudWatchAgent aws (JsString instanceId) st = Some (s2, Raised e))
  /\ (forall s1 s2,
        install st = Some (s1, Returned tt) ->
        write s1 = Some (s2, Returned tt) ->
        installCloudWatchAgent aws (JsString instanceId) st = configure s2)
  /\ exists st' res new,
      installCloudWatchAgent aws (JsString instanceId) st = Some (st', res)
      /\ log st' = log st ++ new
      /\ steps new
         `prefix_of` [SendCommand (installCommand (JsString instanceId));
                      PutParameter (agentConfigParameter instanceId);
                      SendCommand (configureCommand (JsString instanceId) instanceId)]
      /\ (res = Returned tt ->
          steps new = [SendCommand (installCommand (JsString instanceId));
                       PutParameter (agentConfigParameter instanceId);
                       SendCommand (configureCommand (JsString instanceId) instanceId)]).
Proof.
  intros install write configure.
  split; [reflexivity|]. split; [reflexivity|].
  split.
  { intros params s s1 result Hsend. unfold dispatchAndAwait.
    rewrite (bind_returned _ _ _ _ _ Hsend). now destruct (commandIdOf result). }
  split.
  { intros s1 e H1.
    rewrite (installCloudWatchAgent_eq aws (JsString instanceId) instanceId eq_refl).
    now rewrite (bind_raised _ _ _ _ _ H1). }
  split.
  { intros s1 s2 e H1 H2.
    rewrite (installCloudWatchAgent_eq aws (JsString instanceId) instanceId eq_refl).
    rewrite (bind_returned _ _ _ _ _ H1). now rewrite (bind_raised _ _ _ _ _ H2). }
  split.
  { intros s1 s2 H1 H2.
    rewrite (installCloudWatchAgent_eq aws (JsString instanceId) instanceId eq_refl).
    rewrite (bind_returned _ _ _ _ _ H1). now rewrite (bind_returned _ _ _ _ _ H2). }
  exact (installCloudWatchAgent_run aws (JsString instanceId) instanceId eq_refl st).
Qed.

(** C5 as stated fails: when the reply to the install dispatch carries no
    command id the provisioner writes the configuration and dispatches the
    configure command without the waiter having run at all, and returns. *)
Lemma provision_without_waiting :
  exists st',
    installCloudWatchAgent cloud_without_command_id (JsString "i-123") fresh
    = Some (st', Returned tt)
    /\ map fst (log st')
       = [SendCommand (installCommand (JsString "i-123"));
          PutParameter (agentConfigParameter "i-123");
          SendCommand (configureCommand (JsString "i-123") "i-123")]
    /\ polls (log st') = []
    /\ ~ In (SetTimeout 5000) (map fst (log st')).
Proof.
  eexists. split; [reflexivity|]. split; [reflexivity|]. split; [reflexivity|].
  cbn. intros [H|[H|[H|[]]]]; discriminate.
Qed.

(** ** The Alarm Reconciler *)

Lemma interpolate_text {W} (v : JsValue) text (st : Run W) :
  ToString v = Some text -> interpolate v st = Some (st, Returned text).
Proof. intros H. unfold interpolate. now rewrite H. Qed.

Section Reconciler.
Context {W : Type}.
Variable aws : Collaborators W.
Variable instanceId : JsValue.
Variable text : string.
Hypothesis Htext : ToString instanceId = Some text.
Variable snsTopicArn : string.

(** The resolver makes one describe call, and what it makes of the reply
    is [resolved]. *)
Lemma getInstanceInfo_eq (st : Run W) :
  getInstanceInfo aws instanceId st
  = Some ({| world := fst (ec2_describeInstances aws [instanceId] (world st));
             log := log st
                      ++ [(DescribeInstances [instanceId],
                           match snd (ec2_describeInstances aws [instanceId] (world st)) with
                           | inl e => Rejected e
                           | inr result => Described result
                           end)] |},
          resolved text (snd (ec2_describeInstances aws [instanceId] (world st)))).
Proof.
  unfold getInstanceInfo, bind, describeInstances, promise, resolved, LookupError,
    interpolate.
  rewrite Htext.
  destruct (ec2_describeInstances aws [instanceId] (world st)) as [w [e|result]];
    [reflexivity|]. cbn [fst snd].
  destruct (firstInstance result) as [instance|]; [|reflexivity].
  destruct (truthy_field (EC2.InstanceType instance)
            && truthy_field (EC2.ImageId instance)); reflexivity.
Qed.

(** An [InstanceInfo] it returns is read off the first instance of the
    reply. *)
Lemma getInstanceInfo_run (st : Run W) :
  exists st1 reply r,
    getInstanceInfo aws instanceId st = Some (st1, r)
    /\ log st1 = log st ++ [(DescribeInstances [instanceId], reply)]
    /\ forall info, r = Returned info ->
         exists result instance,
           reply = Described result
           /\ firstInstance result = Some instance
           /\ EC2.InstanceType instance = Some (instanceType info)
           /\ EC2.ImageId instance = Some (imageId info).
Proof.
  eexists _, _, _. split; [apply getInstanceInfo_eq|]. split; [reflexivity|].
  unfold resolved.
  destruct (snd (ec2_describeInstances aws [instanceId] (world st))) as [e|result];
    [discriminate|].
  destruct (firstInstance result) as [instance|] eqn:Hfirst; [|discriminate].
  destruct (truthy_field (EC2.InstanceType instance)
            && truthy_field (EC2.ImageId instance)) eqn:Hfields; [|discriminate].
  intros info [= <-]. exists result, instance. cbn [instanceType imageId].
  apply andb_prop in Hfields as [Htype Himage].
  destruct (EC2.InstanceType instance), (EC2.ImageId instance);
    try discriminate; auto.
Qed.

(** The run of [createAlarms] after a resolved lookup, by what the two puts
    are answered. *)
Lemma createAlarms_puts (st st1 : Run W) info :
  getInstanceInfo aws instanceId st = Some (st1, Returned info) ->
  createAlarms aws instanceId snsTopicArn st
  = match cloudwatch_putMetricAlarm aws (cpuAlarmFor instanceId text snsTopicArn)
            (world st1) with
    | (w2, inl e) =>
        Some ({| world := w2;
                 log := log st1
                          ++ [(PutMetricAlarm (cpuAlarmFor instanceId text snsTopicArn),
                               Rejected e)] |}, Raised e)
    | (w2, inr _) =>
        match cloudwatch_putMetricAlarm aws
                (memoryAlarmFor instanceId text snsTopicArn info) w2 with
        | (w3, inl e) =>
            Some ({| world := w3;
                     log := log st1
                              ++ [(PutMetricAlarm (cpuAlarmFor instanceId text snsTopicArn),
                                   Ack);
                                  (PutMetricAlarm
                                     (memoryAlarmFor instanceId text snsTopicArn info),
                                   Rejected e)] |}, Raised e)
        | (w3, inr _) =>
            Some ({| world := w3;
                     log := log st1
                              ++ [(PutMetricAlarm (cpuAlarmFor instanceId text snsTopicArn),
                                   Ack);
                                  (PutMetricAlarm
                                     (memoryAlarmFor instanceId text snsTopicArn info),
                                   Ack)] |}, Returned tt)
        end
    end.
Proof.
  intros Hinfo. unfold createAlarms. rewrite try_catch_rethrow.
  rewrite (bind_returned _ _ _ _ _ Hinfo).
  rewrite (bind_returned _ _ _ _ _ (interpolate_text instanceId text st1 Htext)).
  fold (cpuAlarmFor instanceId text snsTopicArn).
  fold (memoryAlarmFor instanceId text snsTopicArn info).
  unfold bind, putMetricAlarm, promise.
  destruct (cloudwatch_putMetricAlarm aws (cpuAlarmFor instanceId text snsTopicArn)
              (world st1)) as [w2 [e|[]]]; [reflexivity|]. cbn [world log].
  destruct (cloudwatch_putMetricAlarm aws
              (memoryAlarmFor instanceId text snsTopicArn info) w2) as [w3 [e|[]]];
    rewrite <- app_assoc; reflexivity.
Qed.

Lemma createAlarms_lookup_failed (st st1 : Run W) e :
  getInstanceInfo aws instanceId st = Some (st1, Raised e) ->
  createAlarms aws instanceId snsTopicArn st = Some (st1, Raised e).
Proof.
  intros Hinfo. unfold createAlarms. rewrite try_catch_rethrow.
  now rewrite (bind_raised _ _ _ _ _ Hinfo).
Qed.

(** [deleteAlarms] makes one call, the delete of the two names. *)
Lemma deleteAlarms_log (st : Run W) :
  exists st' r reply,
    deleteAlarms aws instanceId st = Some (st', r)
    /\ log st' = log st ++ [(DeleteAlarms (alarmNames text), reply)]
    /\ (r = Returned tt /\ reply = Ack \/ exists e, r = Raised e /\ reply = Rejected e).
Proof.
  unfold deleteAlarms. rewrite try_catch_rethrow.
  rewrite (bind_returned _ _ _ _ _ (interpolate_text instanceId text st Htext)).
  fold (alarmNames text).
  destruct (promise_total (DeleteAlarms (alarmNames text))
              (cloudwatch_deleteAlarms aws (alarmNames text)) (fun _ => Ack) st)
    as (st' & res & Hcall).
  unfold cloudwatchDeleteAlarms. rewrite Hcall.
  apply promise_inv in Hcall as [(e & _ & -> & Hlog)|([] & _ & -> & Hlog)];
    eexists _, _, _; (split; [reflexivity|]); (split; [exact Hlog|]); eauto.
Qed.
End Reconciler.

Lemma append_inj_r (p s1 s2 : string) : p +:+ s1 = p +:+ s2 -> s1 = s2.
Proof. induction p as [|c p IH]; cbn; [auto|]. intros [= H]. auto. Qed.

Lemma alarmNames_NoDup i j : i <> j -> NoDup (alarmNames i ++ alarmNames j).
Proof.
  intros Hij. unfold alarmNames. cbn [app].
  repeat (apply NoDup_cons_2; [rewrite ?elem_of_cons; rewrite elem_of_nil|]).
  - intros [H|[H|[H|[]]]]; try discriminate. apply append_inj_r in H. contradiction.
  - intros [H|[H|[]]]; try discriminate. apply append_inj_r in H. contradiction.
  - intros [H|[]]; discriminate.
  - intros [].
  - apply NoDup_nil_2.
Qed.


(** C8: after a resolved lookup createAlarms always puts an alarm named
    CPU-High-<instanceId>, and when that put is acknowledged it puts an alarm
    named Memory-High-<instanceId> next, and nothing else; it returns exactly
    when the second put is acknowledged.  After a failed lookup it puts
    nothing.  deleteAlarms makes one delete call naming exactly those two
    names.  The names depend on nothing but the instance id, and for two
    distinct instance ids the four names are pairwise distinct. *)
Theorem alarm_names {W} (aws : Collaborators W) (i j target : string) (st : Run W) :
  (exists st1 r st' res puts,
      getInstanceInfo aws (JsString i) st = Some (st1, r)
      /\ createAlarms aws (JsString i) target st = Some (st', res)
      /\ log st' = log st1 ++ puts
      /\ match r with
         | Raised e => puts = [] /\ res = Raised e
         | Returned _ =>
             exists cpu reply rest,
               puts = (PutMetricAlarm cpu, reply) :: rest
               /\ CloudWatch.AlarmName cpu = "CPU-High-" +:+ i
               /\ match reply with
                  | Ack =>
                      exists mem reply',
                        rest = [(PutMetricAlarm mem, reply')]
                        /\ CloudWatch.AlarmName mem = "Memory-High-" +:+ i
                        /\ (res = Returned tt <-> reply' = Ack)
                  | _ => rest = [] /\ res <> Returned tt
                  end
         end)
  /\ (exists st' res reply,
        deleteAlarms aws (JsString i) st = Some (st', res)
        /\ log st' = log st ++ [(DeleteAlarms ["CPU-High-" +:+ i; "Memory-High-" +:+ i],
                                 reply)])
  /\ (i <> j ->
      NoDup (["CPU-High-" +:+ i; "Memory-High-" +:+ i]
               ++ ["CPU-High-" +:+ j; "Memory-High-" +:+ j])).
Proof.
  split; [|split].
  - destruct (getInstanceInfo_run aws (JsString i) i eq_refl st)
      as (st1 & reply0 & r & Hinfo & _ & _).
    destruct r as [info|e].
    + pose proof (createAlarms_puts aws (JsString i) i eq_refl target st st1 info Hinfo)
        as Hrun.
      destruct (cloudwatch_putMetricAlarm aws (cpuAlarmFor (JsString i) i target)
                  (world st1)) as [w2 [e|[]]].
      { eexists st1, _, _, _, _. split; [exact Hinfo|]. split; [exact Hrun|].
        split; [reflexivity|]. eexists _, _, _. split; [reflexivity|].
        split; [reflexivity|]. split; [reflexivity|discriminate]. }
      destruct (cloudwatch_putMetricAlarm aws (memoryAlarmFor (JsString i) i target info)
                  w2) as [w3 [e|[]]];
        (eexists st1, _, _, _, _; split; [exact Hinfo|]; split; [exact Hrun|];
         split; [reflexivity|]; eexists _, _, _; split; [reflexivity|];
         split; [reflexivity|]; eexists _, _; split; [reflexivity|];
         split; [reflexivity|]; split; [discriminate||reflexivity|discriminate||reflexivity]).
    + eexists st1, _, _, _, []. split; [exact Hinfo|].
      split; [exact (createAlarms_lookup_failed aws _ target _ _ _ Hinfo)|].
      split; [now rewrite app_nil_r|]. split; reflexivity.
  - destruct (deleteAlarms_log aws (JsString i) i eq_refl st)
      as (st' & res & reply & Hrun & Hlog & _).
    exists st', res, reply. split; [exact Hrun|exact Hlog].
  - apply alarmNames_NoDup.
Qed.

(** C9: against an alarm backend whose delete removes the named alarms and
    accepts absent names, deleteAlarms returns, and so does a second call
    after it; after the first call both alarms of the instance are absent,
    the second call leaves the store as the first left it, and a call made
    when both alarms are already absent leaves the store as it was. *)
Theorem deleteAlarms_idempotent
    (aws : Collaborators (gmap string CloudWatch.PutMetricAlarmInput))
    (instanceId : string) (st : Run (gmap string CloudWatch.PutMetricAlarmInput)) :
  cloudwatch_deleteAlarms aws = store_delete ->
  exists st1 st2,
    deleteAlarms aws (JsString instanceId) st = Some (st1, Returned tt)
    /\ deleteAlarms aws (JsString instanceId) st1 = Some (st2, Returned tt)
    /\ world st1 !! ("CPU-High-" +:+ instanceId) = None
    /\ world st1 !! ("Memory-High-" +:+ instanceId) = None
    /\ world st2 = world st1
    /\ (world st !! ("CPU-High-" +:+ instanceId) = None ->
        world st !! ("Memory-High-" +:+ instanceId) = None ->
        world st1 = world st).
Proof.
  intros Hcontract.
  assert (Hrun : forall s : Run (gmap string CloudWatch.PutMetricAlarmInput),
             deleteAlarms aws (JsString instanceId) s
             = Some ({| world := delete ("CPU-High-" +:+ instanceId)
                                   (delete ("Memory-High-" +:+ instanceId) (world s));
                        log := log s ++ [(DeleteAlarms ["CPU-High-" +:+ instanceId;
                                                        "Memory-High-" +:+ instanceId],
                                          Ack)] |}, Returned tt)).
  { intros s. unfold deleteAlarms. rewrite try_catch_rethrow.
    unfold cloudwatchDeleteAlarms, promise. rewrite Hcontract. reflexivity. }
  eexists _, _. split; [apply Hrun|]. split; [apply Hrun|]. cbn [world].
  assert (Hcpu : forall m : gmap string CloudWatch.PutMetricAlarmInput,
             delete ("CPU-High-" +:+ instanceId)
               (delete ("Memory-High-" +:+ instanceId) m)
             !! ("CPU-High-" +:+ instanceId) = None)
    by (intros m; apply lookup_delete_eq).
  assert (Hmem : forall m : gmap string CloudWatch.PutMetricAlarmInput,
             delete ("CPU-High-" +:+ instanceId)
               (delete ("Memory-High-" +:+ instanceId) m)
             !! ("Memory-High-" +:+ instanceId) = None).
  { intros m. rewrite lookup_delete_ne by discriminate. apply lookup_delete_eq. }
  split; [apply Hcpu|]. split; [apply Hmem|]. split.
  - rewrite (delete_id (delete _ (delete _ (world st))) ("Memory-High-" +:+ instanceId))
      by apply Hmem.
    apply delete_id, Hcpu.
  - intros Habsent_cpu Habsent_mem.
    rewrite (delete_id (world st) ("Memory-High-" +:+ instanceId)) by assumption.
    now apply delete_id.
Qed.

Lemma deleteAlarms_idempotent_witness :
  exists st1 st2,
    deleteAlarms happy_cloud (JsString "i-999") fresh = Some (st1, Returned tt)
    /\ deleteAlarms happy_cloud (JsString "i-999") st1 = Some (st2, Returned tt)
    /\ world st1 !! ("CPU-High-" +:+ "i-999") = None
    /\ world st1 !! ("Memory-High-" +:+ "i-999") = None
    /\ world st2 = world st1
    /\ (world fresh !! ("CPU-High-" +:+ "i-999") = None ->
        world fresh !! ("Memory-High-" +:+ "i-999") = None ->
        world st1 = world fresh).
Proof.
  apply (deleteAlarms_idempotent happy_cloud "i-999" fresh). reflexivity.
Defined.

(** ** The Event Dispatcher *)

Lemma strict_eq_string_true v s : strict_eq_string v s = true <-> v = JsString s.
Proof.
  destruct v; cbn; try (split; [discriminate|intros [=]]).
  rewrite String.eqb_eq. split; [now intros ->|now intros [= ->]].
Qed.

Lemma strict_eq_string_false v s : v <> JsString s -> strict_eq_string v s = false.
Proof.
  intros Hne. destruct (strict_eq_string v s) eqn:Heq; [|reflexivity].
  now apply strict_eq_string_true in Heq.
Qed.

Section Dispatcher.
Context {W : Type}.
Variable aws : Collaborators W.

(** A failed check, or a failed conversion for the log line, raises its
    error before anything is called. *)
Lemma handler_rejection topic event e (st : Run W) :
  rejection topic event = Some e -> handler aws topic event st = Some (st, Raised e).
Proof.
  unfold rejection, handler, instanceIdOf, stateOf, detailOf.
  destruct (negb (truthy_field topic)); [now intros [= <-]|].
  destruct event; try (now intros [= <-]);
    (destruct (negb (truthy (prop _ "detail")) || negb (typeof_object (prop _ "detail")));
     [now intros [= <-]|]);
    (destruct (negb (truthy (prop (prop _ "detail") "instance-id")));
     [now intros [= <-]|]);
    (destruct (negb (truthy (prop (prop _ "detail") "state")));
     [now intros [= <-]|]);
    unfold bind, interpolate;
    (destruct (ToString (prop (prop _ "detail") "instance-id"));
     [destruct (ToString (prop (prop _ "detail") "state"))|]);
    first [discriminate | now intros [= <-]].
Qed.

(** Past the checks and the log line the handler is its dispatch on the
    state. *)
Lemma handler_validated topic event (st : Run W) :
  rejection topic event = None ->
  handler aws topic event st
  = (if strict_eq_string (stateOf event) "running" then
       (wait installCloudWatchAgent aws (instanceIdOf event) ;;
        createAlarms aws (instanceIdOf event) (or_empty topic))%prog
     else if strict_eq_string (stateOf event) "terminated" then
       deleteAlarms aws (instanceIdOf event)
     else ret tt) st.
Proof.
  unfold rejection, handler, instanceIdOf, stateOf, detailOf.
  destruct (negb (truthy_field topic)); [discriminate|].
  destruct event; try discriminate;
    (destruct (negb (truthy (prop _ "detail")) || negb (typeof_object (prop _ "detail")));
     [discriminate|]);
    (destruct (negb (truthy (prop (prop _ "detail") "instance-id")));
     [discriminate|]);
    (destruct (negb (truthy (prop (prop _ "detail") "state")));
     [discriminate|]);
    unfold bind at 1 2, interpolate;
    (destruct (ToString (prop (prop _ "detail") "instance-id"));
     [destruct (ToString (prop (prop _ "detail") "state"))|]);
    try discriminate; intros _; apply try_catch_rethrow.
Qed.

Lemma rejection_none topic event text text' :
  topic <> "" ->
  truthy (detailOf event) = true ->
  typeof_object (detailOf event) = true ->
  truthy (instanceIdOf event) = true ->
  truthy (stateOf event) = true ->
  ToString (instanceIdOf event) = Some text ->
  ToString (stateOf event) = Some text' ->
  rejection (Some topic) event = None.
Proof.
  intros Htopic Hdetail Hobject Hid Hstate Htext Htext'.
  unfold rejection, truthy_field, or_empty.
  apply String.eqb_neq in Htopic. rewrite Htopic.
  rewrite Hdetail, Hobject, Hid, Hstate, Htext, Htext'. cbn.
  destruct event; try reflexivity; discriminate.
Qed.

(** What an event that gets past the checks and the log line is like. *)
Lemma rejection_None_inv topic event :
  rejection topic event = None ->
  truthy_field topic = true
  /\ truthy (detailOf event) = true
  /\ typeof_object (detailOf event) = true
  /\ truthy (instanceIdOf event) = true
  /\ truthy (stateOf event) = true
  /\ (exists text, ToString (instanceIdOf event) = Some text)
  /\ (exists text, ToString (stateOf event) = Some text).
Proof.
  unfold rejection.
  destruct (truthy_field topic); [|discriminate]. cbn [negb].
  destruct (truthy (detailOf event)); [|destruct event; discriminate].
  destruct (typeof_object (detailOf event)); [|destruct event; discriminate].
  destruct (truthy (instanceIdOf event)); [|destruct event; discriminate].
  destruct (truthy (stateOf event)); [|destruct event; discriminate].
  destruct (ToString (instanceIdOf event)); [|destruct event; discriminate].
  destruct (ToString (stateOf event)); [|destruct event; discriminate].
  intros _. repeat split; eauto.
Qed.
End Dispatcher.

(** C1, as amended: for an event that passes validation and whose instance
    id and state have a text for the handler's log line, as every string has,
    a state equal to the string running makes the handler run the provisioner
    and then createAlarms, the latter only when the provisioner returned, a
    failure of the provisioner being the handler's failure with nothing
    called after it; a state equal to terminated makes it run deleteAlarms
    alone, whose one call is the delete; any other state makes it return with
    nothing called.  When the instance id or the state has no text, the
    handler raises a TypeError with nothing called. *)
Theorem handler_dispatch {W} (aws : Collaborators W) topic event (st : Run W) :
  topic <> "" ->
  truthy (detailOf event) = true ->
  typeof_object (detailOf event) = true ->
  truthy (instanceIdOf event) = true ->
  truthy (stateOf event) = true ->
  (ToString (instanceIdOf event) = None \/ ToString (stateOf event) = None ->
   handler aws (Some topic) event st
   = Some (st, Raised (TypeError "Cannot convert object to primitive value")))
  /\ (forall text,
        ToString (instanceIdOf event) = Some text ->
        (stateOf event = JsString "running" ->
         (exists st1 r,
            installCloudWatchAgent aws (instanceIdOf event) st = Some (st1, r))
         /\ (forall st1 e,
               installCloudWatchAgent aws (instanceIdOf event) st = Some (st1, Raised e) ->
               handler aws (Some topic) event st = Some (st1, Raised e))
         /\ (forall st1,
               installCloudWatchAgent aws (instanceIdOf event) st
               = Some (st1, Returned tt) ->
               handler aws (Some topic) event st
               = createAlarms aws (instanceIdOf event) topic st1))
        /\ (stateOf event = JsString "terminated" ->
            handler aws (Some topic) event st = deleteAlarms aws (instanceIdOf event) st
            /\ exists st' res reply,
                deleteAlarms aws (instanceIdOf event) st = Some (st', res)
                /\ log st' = log st ++ [(DeleteAlarms (alarmNames text), reply)])
        /\ (stateOf event <> JsString "running" ->
            stateOf event <> JsString "terminated" ->
            ToString (stateOf event) <> None ->
            handler aws (Some topic) event st = Some (st, Returned tt))).
Proof.
  intros Htopic Hdetail Hobject Hid Hstate. split.
  { intros Hnone. apply handler_rejection.
    unfold rejection, truthy_field, or_empty.
    apply String.eqb_neq in Htopic. rewrite Htopic, Hdetail, Hobject, Hid, Hstate.
    cbn [negb orb].
    assert (Hline : match ToString (instanceIdOf event), ToString (stateOf event) with
                    | Some _, Some _ => None
                    | _, _ => Some (TypeError "Cannot convert object to primitive value")
                    end = Some (TypeError "Cannot convert object to primitive value")).
    { destruct Hnone as [-> | ->]; [reflexivity|].
      now destruct (ToString (instanceIdOf event)). }
    rewrite Hline. destruct event; try reflexivity; discriminate. }
  intros text Htext.
  assert (Hrun : forall text',
             ToString (stateOf event) = Some text' ->
             handler aws (Some topic) event st
             = (if strict_eq_string (stateOf event) "running" then
                  (wait installCloudWatchAgent aws (instanceIdOf event) ;;
                   createAlarms aws (instanceIdOf event) topic)%prog
                else if strict_eq_string (stateOf event) "terminated" then
                  deleteAlarms aws (instanceIdOf event)
                else ret tt) st).
  { intros text' Htext'.
    exact (handler_validated aws (Some topic) event st
             (rejection_none topic event text text' Htopic Hdetail Hobject Hid Hstate
                Htext Htext')). }
  split; [|split].
  - intros Hrunning. specialize (Hrun "running").
    rewrite Hrunning in Hrun. specialize (Hrun eq_refl). cbn in Hrun.
    split; [|split].
    + destruct (installCloudWatchAgent_run aws (instanceIdOf event) text Htext st)
        as (st1 & r & _ & Hi & _).
      eauto.
    + intros st1 e Hinstall. rewrite Hrun. now apply bind_raised.
    + intros st1 Hinstall. rewrite Hrun. now rewrite (bind_returned _ _ _ _ _ Hinstall).
  - intros Hterminated. specialize (Hrun "terminated").
    rewrite Hterminated in Hrun. specialize (Hrun eq_refl). cbn in Hrun.
    split; [exact Hrun|].
    destruct (deleteAlarms_log aws (instanceIdOf event) text Htext st)
      as (st' & res & reply & Hdelete & Hlog & _).
    eauto.
  - intros Hnot_running Hnot_terminated Hsome.
    destruct (ToString (stateOf event)) as [text'|] eqn:Htext'; [|contradiction].
    rewrite (Hrun text' eq_refl).
    now rewrite (strict_eq_string_false _ _ Hnot_running),
      (strict_eq_string_false _ _ Hnot_terminated).
Qed.

Lemma handler_dispatch_witness :
  handler happy_cloud (Some "topic")
    (lifecycle_event (JsString "i-999") (JsString "terminated")) fresh
  = deleteAlarms happy_cloud (JsString "i-999") fresh
  /\ handler happy_cloud (Some "topic")
       (lifecycle_event (JsString "i-999") (JsString "terminated")) fresh
     <> Some (fresh, Returned tt).
Proof.
  split.
  - refine (proj1 (proj1 (proj2 (proj2
      (handler_dispatch happy_cloud "topic"
         (lifecycle_event (JsString "i-999") (JsString "terminated")) fresh
         _ _ _ _ _) "i-999" _)) _));
      first [discriminate | reflexivity].
  - discriminate.
Defined.

(** C1 as stated fails: an event whose state is an object with a toString
    property of its own passes the four checks, its state is neither running
    nor terminated, and the handler does not return: the conversion of the
    state to text for the log line raises a TypeError. *)
Lemma handler_state_without_text :
  truthy (detailOf state_without_text_event) = true
  /\ typeof_object (detailOf state_without_text_event) = true
  /\ truthy (instanceIdOf state_without_text_event) = true
  /\ truthy (stateOf state_without_text_event) = true
  /\ stateOf state_without_text_event <> JsString "running"
  /\ stateOf state_without_text_event <> JsString "terminated"
  /\ handler happy_cloud (Some "topic") state_without_text_event fresh
     = Some (fresh, Raised (TypeError "Cannot convert object to primitive value")).
Proof. repeat split; discriminate. Qed.

(** C7: an event without a detail object, without detail["instance-id"] or
    without detail.state makes the handler raise with the run left as it
    was, so that nothing has been called; the error is one of the handler's
    validation errors whenever the event is a value that has properties. *)
Theorem handler_rejects_missing {W} (aws : Collaborators W) topic event (st : Run W) :
  detailOf event = JsUndefined
  \/ instanceIdOf event = JsUndefined
  \/ stateOf event = JsUndefined ->
  exists e,
    handler aws topic event st = Some (st, Raised e)
    /\ (event <> JsUndefined -> event <> JsNull -> In e validationErrors).
Proof.
  intros Hmissing.
  assert (Hrej : exists e, rejection topic event = Some e
                           /\ (event <> JsUndefined -> event <> JsNull ->
                               In e validationErrors)).
  { unfold rejection, validationErrors.
    destruct (negb (truthy_field topic)); [eexists; split; [reflexivity|cbn; auto]|].
    destruct (negb (truthy (detailOf event)) || negb (typeof_object (detailOf event)))
      eqn:Hdetail.
    { destruct event; eexists; (split; [reflexivity|]); cbn; auto; congruence. }
    destruct (negb (truthy (instanceIdOf event))) eqn:Hid.
    { destruct event; eexists; (split; [reflexivity|]); cbn; auto; congruence. }
    destruct (negb (truthy (stateOf event))) eqn:Hstate.
    { destruct event; eexists; (split; [reflexivity|]); cbn; auto 6; congruence. }
    exfalso. destruct Hmissing as [H|[H|H]]; rewrite H in *; discriminate. }
  destruct Hrej as (e & Hrej & Hvalid).
  exists e. split; [now apply handler_rejection|exact Hvalid].
Qed.

Lemma handler_rejects_missing_witness :
  exists e,
    handler happy_cloud (Some "topic")
      (JsObject [("detail", JsObject [("instance-id", JsString "i-123")])]) fresh
    = Some (fresh, Raised e)
    /\ (JsObject [("detail", JsObject [("instance-id", JsString "i-123")])] <> JsUndefined ->
        JsObject [("detail", JsObject [("instance-id", JsString "i-123")])] <> JsNull ->
        In e validationErrors).
Proof.
  apply (handler_rejects_missing happy_cloud (Some "topic")
           (JsObject [("detail", JsObject [("instance-id", JsString "i-123")])]) fresh).
  right. right. reflexivity.
Defined.

(** C10, as amended: with the notification target set and a detail object
    present, an instance-id that is the empty string is rejected with the
    error raised for a missing one, and likewise an empty state, in both
    cases with the run left as it was; so a run of the handler that returns,
    or that has called anything, had an instance id that is truthy, hence
    not the empty string, and that has a text.  The text itself may be
    empty, the check being on the value and not on its text. *)
Theorem handler_rejects_empty {W} (aws : Collaborators W) topic event (st : Run W) :
  truthy_field topic = true ->
  truthy (detailOf event) = true ->
  typeof_object (detailOf event) = true ->
  (instanceIdOf event = JsString "" \/ instanceIdOf event = JsUndefined ->
   handler aws topic event st
   = Some (st, Raised (Error "Invalid event structure: missing instance-id")))
  /\ (truthy (instanceIdOf event) = true ->
      stateOf event = JsString "" \/ stateOf event = JsUndefined ->
      handler aws topic event st
      = Some (st, Raised (Error "Invalid event structure: missing state")))
  /\ (forall st' res,
        handler aws topic event st = Some (st', res) ->
        res = Returned tt \/ log st' <> log st ->
        truthy (instanceIdOf event) = true
        /\ instanceIdOf event <> JsString ""
        /\ exists text, ToString (instanceIdOf event) = Some text).
Proof.
  intros Htopic Hdetail Hobject.
  assert (Hevent : forall e,
             (if negb (truthy (instanceIdOf event))
              then Some (Error "Invalid event structure: missing instance-id")
              else if negb (truthy (stateOf event))
                   then Some (Error "Invalid event structure: missing state")
                   else None) = Some e ->
             rejection topic event = Some e).
  { intros e He. unfold rejection. rewrite Htopic, Hdetail, Hobject. cbn [negb orb].
    destruct (negb (truthy (instanceIdOf event)));
      [destruct event; try exact He; discriminate|].
    destruct (negb (truthy (stateOf event)));
      [destruct event; try exact He; discriminate|discriminate]. }
  split; [|split].
  - intros Hid. apply handler_rejection, Hevent.
    now destruct Hid as [-> | ->].
  - intros Hid Hstate. apply handler_rejection, Hevent. rewrite Hid.
    now destruct Hstate as [-> | ->].
  - intros st' res Hrun Hpast.
    destruct (rejection topic event) as [e|] eqn:Hrej.
    + exfalso. rewrite (handler_rejection aws topic event _ st Hrej) in Hrun.
      injection Hrun as <- <-. destruct Hpast as [?|?]; [discriminate|contradiction].
    + destruct (rejection_None_inv _ _ Hrej) as (_ & _ & _ & Hid & _ & Htext & _).
      split; [exact Hid|]. split; [|exact Htext].
      intros Heq. rewrite Heq in Hid. discriminate.
Qed.

Lemma handler_rejects_empty_witness :
  handler happy_cloud (Some "topic")
    (lifecycle_event (JsString "") (JsString "running")) fresh
  = Some (fresh, Raised (Error "Invalid event structure: missing instance-id"))
  /\ handler happy_cloud (Some "topic")
       (lifecycle_event (JsString "i-123") (JsString "")) fresh
     = Some (fresh, Raised (Error "Invalid event structure: missing state")).
Proof.
  split.
  - apply (handler_rejects_empty happy_cloud (Some "topic")
             (lifecycle_event (JsString "") (JsString "running")) fresh);
      first [reflexivity | now left].
  - apply (handler_rejects_empty happy_cloud (Some "topic")
             (lifecycle_event (JsString "i-123") (JsString "")) fresh);
      first [reflexivity | now left].
Defined.

(** C10 as stated fails: an instance id that is the empty array is truthy,
    so the event reaches the dispatch; its text is the empty string, and the
    alarms the handler deletes are named CPU-High- and Memory-High- with no
    instance id after the dash. *)
Lemma handler_accepts_empty_array :
  truthy (instanceIdOf (lifecycle_event (JsArray []) (JsString "terminated"))) = true
  /\ ToString (instanceIdOf (lifecycle_event (JsArray []) (JsString "terminated")))
     = Some ""
  /\ handler happy_cloud (Some "topic")
       (lifecycle_event (JsArray []) (JsString "terminated")) fresh
     = Some ({| world := ∅;
                log := [(DeleteAlarms ["CPU-High-"; "Memory-High-"], Ack)] |},
             Returned tt).
Proof. repeat split. Qed.

(** * Further properties of the code *)

(** ** The Instance Metadata Resolver *)

(** X1: getInstanceInfo makes one describe call for the instance id alone.
    A rejection of that call is raised as it is.  An InstanceInfo is returned
    only from the first instance of the first reservation, and only when its
    InstanceType and ImageId are both present and not empty, so that neither
    field of a returned InstanceInfo is ever empty; in every other case the
    lookup error naming the instance id is raised. *)
Theorem getInstanceInfo_result {W} (aws : Collaborators W) (instanceId : string)
    (st st1 : Run W) r :
  getInstanceInfo aws (JsString instanceId) st = Some (st1, r) ->
  exists reply,
    log st1 = log st ++ [(DescribeInstances [JsString instanceId], reply)]
    /\ match reply with
       | Rejected e => r = Raised e
       | Described result =>
           match firstInstance result with
           | Some instance =>
               (exists info,
                  r = Returned info
                  /\ EC2.InstanceType instance = Some (instanceType info)
                  /\ EC2.ImageId instance = Some (imageId info)
                  /\ instanceType info <> "" /\ imageId info <> "")
               \/ (r = Raised (LookupError instanceId)
                   /\ (EC2.InstanceType instance = None
                       \/ EC2.InstanceType instance = Some ""
                       \/ EC2.ImageId instance = None
                       \/ EC2.ImageId instance = Some ""))
           | None => r = Raised (LookupError instanceId)
           end
       | _ => False
       end.
Proof.
  unfold getInstanceInfo, bind, LookupError.
  destruct (promise_total (DescribeInstances [JsString instanceId])
              (ec2_describeInstances aws [JsString instanceId]) Described st)
    as (st0 & r0 & Hcall).
  fold (describeInstances aws [JsString instanceId]) in Hcall. rewrite Hcall.
  apply promise_inv in Hcall as [(e & _ & -> & Hlog)|(result & _ & -> & Hlog)].
  - intros [= <- <-]. exists (Rejected e). auto.
  - intros Hrun. exists (Described result). destruct (firstInstance result) as [instance|].
    2:{ injection Hrun as <- <-. auto. }
    unfold truthy_field, or_empty in Hrun.
    destruct (EC2.InstanceType instance) as [type|] eqn:Htype;
      [destruct (String.eqb_spec type "") as [->|Hne1]|];
      (destruct (EC2.ImageId instance) as [image|] eqn:Himage;
       [destruct (String.eqb_spec image "") as [->|Hne2]|]);
      cbn [negb andb] in Hrun; injection Hrun as <- <-;
      (split; [exact Hlog|]); auto 7.
    left. eexists. split; [reflexivity|]. cbn. auto.
Qed.

Lemma getInstanceInfo_result_witness :
  exists reply,
    log {| world := (∅ : gmap string CloudWatch.PutMetricAlarmInput);
           log := [(DescribeInstances [JsString "i-123"],
                    Described {| EC2.Reservations :=
                                   Some [{| EC2.Instances :=
                                              Some [{| EC2.InstanceType := Some "t3.micro";
                                                       EC2.ImageId := Some "" |}] |}] |})] |}
    = log fresh ++ [(DescribeInstances [JsString "i-123"], reply)]
    /\ match reply with
       | Rejected e => Raised (LookupError "i-123") = @Raised InstanceInfo e
       | Described result =>
           match firstInstance result with
           | Some instance =>
               (exists info,
                  Raised (LookupError "i-123") = Returned info
                  /\ EC2.InstanceType instance = Some (instanceType info)
                  /\ EC2.ImageId instance = Some (imageId info)
                  /\ instanceType info <> "" /\ imageId info <> "")
               \/ (@Raised InstanceInfo (LookupError "i-123") = Raised (LookupError "i-123")
                   /\ (EC2.InstanceType instance = None
                       \/ EC2.InstanceType instance = Some ""
                       \/ EC2.ImageId instance = None
                       \/ EC2.ImageId instance = Some ""))
           | None => @Raised InstanceInfo (LookupError "i-123") = Raised (LookupError "i-123")
           end
       | _ => False
       end.
Proof.
  apply (getInstanceInfo_result imageless_cloud "i-123" fresh). reflexivity.
Defined.

(** ** More on the Remote Command Waiter *)

Lemma polls_app l1 l2 : polls (l1 ++ l2) = polls l1 ++ polls l2.
Proof. apply List.filter_app. Qed.

Lemma delays_app l1 l2 : delays (l1 ++ l2) = (delays l1 + delays l2)%Z.
Proof.
  induction l1 as [|[c r] l1 IH]; cbn; [reflexivity|].
  fold (delays (l1 ++ l2)). fold (delays l1). rewrite IH. destruct c; lia.
Qed.

Lemma retried_status result :
  (forall s, SSM.Status result = Some s ->
             ~ In s ["Success"; "Complete"; "Failed"; "Cancelled"; "TimedOut"]) ->
  terminalSuccess result = false /\ terminalFailure result = false.
Proof.
  intros Hout. split.
  - destruct (terminalSuccess result) eqn:H; [|reflexivity].
    apply terminalSuccess_status in H as [H|H]; apply Hout in H; cbn in H; tauto.
  - destruct (terminalFailure result) eqn:H; [|reflexivity].
    apply terminalFailure_status in H as [H|[H|H]]; apply Hout in H; cbn in H; tauto.
Qed.

Section PollingDelays.
Variable instanceId : JsValue.
Variable commandId : string.

(** Each retried poll is paid for with one interval, and at most one poll,
    the last, is not a retried one. *)
Lemma Polling_delays attempts l res :
  Polling instanceId commandId attempts l res ->
  delays l = (10000 * Z.of_nat (length (retriedPolls l)))%Z
  /\ length (polls l) <= length (retriedPolls l) + 1.
Proof.
  induction 1 as [a Ha|a r Ha Hok|a r Ha Hok Hko|a r rest res Ha Hok Hko Hrest IH
                 |a err rest res Ha Herr Hrest IH|a err Ha Herr];
    unfold retriedPolls, retried;
    cbn [polls List.filter is_poll fst snd pollCall length delays fold_right];
    rewrite ?Hok, ?Hko, ?Herr; cbn [negb andb length];
    try (split; lia).
  - fold (polls rest). fold (delays rest). destruct IH as [-> IH].
    unfold retriedPolls, retried in *. split; lia.
  - fold (polls rest). fold (delays rest). destruct IH as [-> IH].
    unfold retriedPolls, retried in *. split; lia.
Qed.
End PollingDelays.

(** X2: the waiter asks the timer for 5000 ms and then for 10000 ms after
    each retried poll, and for nothing else; at most one poll, the last, is
    not a retried one; so the delays of a run add up to at most 305000 ms,
    and to exactly 305000 ms in a run whose polls were all retried, which is
    the run that ends with the error reporting 300 seconds. *)
Theorem waiter_delays {W} (aws : Collaborators W) instanceId commandId (st : Run W) :
  exists st' res new,
    waitForCommandCompletion aws instanceId commandId st = Some (st', res)
    /\ log st' = log st ++ new
    /\ delays new = (5000 + 10000 * Z.of_nat (length (retriedPolls new)))%Z
    /\ length (polls new) <= length (retriedPolls new) + 1
    /\ (delays new <= 305000)%Z
    /\ (Forall (fun e => retried e = true) (polls new) ->
        delays new = 305000%Z
        /\ res = Raised (Error "Command timed out after 300 seconds")).
Proof.
  destruct (waitForCommandCompletion_Polling aws instanceId commandId st)
    as (st' & res & new & Hrun & Hlog & Hpoll).
  exists st', res, ((SetTimeout 5000, Elapsed) :: new).
  split; [exact Hrun|]. split; [exact Hlog|].
  destruct (Polling_delays _ _ _ _ _ Hpoll) as [Hdelays Hlast].
  pose proof (Polling_budget _ _ _ _ _ Hpoll) as Hbudget. unfold maxAttempts in Hbudget.
  assert (Hle : length (retriedPolls new) <= length (polls new))
    by apply List.filter_length_le.
  change (delays ((SetTimeout 5000, Elapsed) :: new)) with (5000 + delays new)%Z.
  change (polls ((SetTimeout 5000, Elapsed) :: new)) with (polls new).
  change (retriedPolls ((SetTimeout 5000, Elapsed) :: new)) with (retriedPolls new).
  rewrite Hdelays. repeat split; try lia.
  - destruct (Polling_timeout _ _ _ _ _ Hpoll H) as [_ Hlen]. unfold maxAttempts in Hlen.
    assert (Hall : retriedPolls new = polls new).
    { unfold retriedPolls. apply forallb_filter_id, forallb_forall.
      intros e He. rewrite Forall_forall in H. apply H. now apply list_elem_of_In. }
    rewrite Hall. lia.
  - now destruct (Polling_timeout _ _ _ _ _ Hpoll H).
Qed.

(** X3: a run of the waiter whose polls were all retried ends with the
    timeout error only after it has asked the timer for more milliseconds
    than the timeout the stack gives the function. *)
Theorem waiter_outlasts_function {W} (aws : Collaborators W) instanceId commandId
    (st st' : Run W) res new :
  waitForCommandCompletion aws instanceId commandId st = Some (st', res) ->
  log st' = log st ++ new ->
  forallb retried (polls new) = true ->
  res = Raised CommandTimeout
  /\ Stack.functionTimeout = 300000%Z
  /\ (Stack.functionTimeout < delays new)%Z.
Proof.
  intros Hrun Hlog Hall.
  destruct (waitForCommandCompletion_Polling aws instanceId commandId st)
    as (st1 & res1 & new1 & Hrun1 & Hlog1 & Hpoll).
  rewrite Hrun in Hrun1. injection Hrun1 as <- <-.
  rewrite Hlog in Hlog1. apply app_inv_head in Hlog1. subst new.
  change (polls ((SetTimeout 5000, Elapsed) :: new1)) with (polls new1) in Hall.
  assert (HAll : Forall (fun e => retried e = true) (polls new1)).
  { apply Forall_forall. intros e He. rewrite forallb_forall in Hall.
    apply Hall. now apply list_elem_of_In. }
  destruct (Polling_timeout _ _ _ _ _ Hpoll HAll) as [-> Hlen]. unfold maxAttempts in Hlen.
  destruct (Polling_delays _ _ _ _ _ Hpoll) as [Hdelays _].
  assert (Hsame : retriedPolls new1 = polls new1)
    by (unfold retriedPolls; now apply forallb_filter_id).
  change (delays ((SetTimeout 5000, Elapsed) :: new1)) with (5000 + delays new1)%Z.
  rewrite Hdelays, Hsame. unfold Stack.functionTimeout, Stack.Duration_minutes.
  repeat split; lia.
Qed.

Lemma waiter_outlasts_function_witness :
  (Stack.functionTimeout
   < delays ((SetTimeout 5000, Elapsed)
               :: concat (replicate 30
                            [(pollCall (JsString "i-123") "cmd-1",
                              Rejected (AWSError (Some "InvocationDoesNotExist") None));
                             (SetTimeout 10000, Elapsed)])))%Z.
Proof.
  refine (proj2 (proj2
    (waiter_outlasts_function invisible_cloud (JsString "i-123") "cmd-1" fresh
       {| world := ∅;
          log := (SetTimeout 5000, Elapsed)
                   :: concat (replicate 30
                                [(pollCall (JsString "i-123") "cmd-1",
                                  Rejected (AWSError (Some "InvocationDoesNotExist") None));
                                 (SetTimeout 10000, Elapsed)]) |}
       (Raised CommandTimeout) _ _ _ _)));
    vm_compute; reflexivity.
Defined.

(** X4: a poll answered without a status, or with a status that is none of
    Success, Complete, Failed, Cancelled and TimedOut, letter for letter,
    does not end the waiter: the 10000 ms delay follows it in the log. *)
Theorem waiter_ignores_other_status {W} (aws : Collaborators W) instanceId commandId
    (st st' : Run W) res new before result after :
  waitForCommandCompletion aws instanceId commandId st = Some (st', res) ->
  log st' = log st ++ new ->
  new = before ++ (pollCall instanceId commandId, Invocation result) :: after ->
  (forall s, SSM.Status result = Some s ->
             ~ In s ["Success"; "Complete"; "Failed"; "Cancelled"; "TimedOut"]) ->
  exists rest, after = (SetTimeout 10000, Elapsed) :: rest.
Proof.
  intros Hrun Hlog Hsplit Hstatus.
  destruct (waitForCommandCompletion_Polling aws instanceId commandId st)
    as (st1 & res1 & new1 & Hrun1 & Hlog1 & Hpoll).
  rewrite Hrun in Hrun1. injection Hrun1 as <- <-.
  rewrite Hlog in Hlog1. apply app_inv_head in Hlog1. subst new.
  destruct before as [|x before]; [discriminate|]. injection Hlog1 as _ Hnew.
  symmetry in Hnew.
  destruct (retried_status result Hstatus) as [Hok Hko].
  destruct (Polling_split _ _ _ _ _ Hpoll _ _ _ Hnew eq_refl) as [[_ ?]|[Hre _]];
    [assumption|].
  unfold retried in Hre. cbn [snd] in Hre. rewrite Hok, Hko in Hre. discriminate.
Qed.

Lemma waiter_ignores_other_status_witness :
  exists rest,
    [(SetTimeout 10000, Elapsed);
     (pollCall (JsString "i-123") "cmd-1",
      Invocation {| SSM.Status := Some "Success"; SSM.StandardErrorContent := Some "" |})]
    = (SetTimeout 10000, Elapsed) :: rest.
Proof.
  eapply (waiter_ignores_other_status vague_cloud (JsString "i-123") "cmd-1"
            {| world := 1; log := [] |} _ _ _
            [(SetTimeout 5000, Elapsed)]
            {| SSM.Status := None; SSM.StandardErrorContent := None |}).
  - vm_compute. reflexivity.
  - reflexivity.
  - reflexivity.
  - intros s Hs. discriminate Hs.
Defined.

(** X5: when a poll reports Failed, Cancelled or TimedOut and carries no
    error content, the message of the error the waiter raises ends with the
    word undefined. *)
Theorem waiter_failure_without_content {W} (aws : Collaborators W) instanceId commandId
    (st st' : Run W) res new before result after s :
  waitForCommandCompletion aws instanceId commandId st = Some (st', res) ->
  log st' = log st ++ new ->
  new = before ++ (pollCall instanceId commandId, Invocation result) :: after ->
  SSM.Status result = Some s ->
  In s ["Failed"; "Cancelled"; "TimedOut"] ->
  SSM.StandardErrorContent result = None ->
  res = Raised (Error ("Command failed with status " +:+ s +:+ ": undefined")).
Proof.
  intros Hrun Hlog Hsplit Hstatus Hin Hcontent.
  destruct (waitForCommandCompletion_Polling aws instanceId commandId st)
    as (st1 & res1 & new1 & Hrun1 & Hlog1 & Hpoll).
  rewrite Hrun in Hrun1. injection Hrun1 as <- <-.
  rewrite Hlog in Hlog1. apply app_inv_head in Hlog1. subst new.
  destruct before as [|x before]; [discriminate|]. injection Hlog1 as _ Hnew.
  symmetry in Hnew.
  assert (Hko : terminalFailure result = true).
  { apply terminalFailure_status. rewrite Hstatus. cbn in Hin.
    destruct Hin as [<-|[<-|[<-|[]]]]; auto. }
  destruct (Polling_split _ _ _ _ _ Hpoll _ _ _ Hnew eq_refl) as [[Hre _]|(_ & _ & ->)].
  - unfold retried in Hre. cbn [snd] in Hre. rewrite Hko, andb_false_r in Hre. discriminate.
  - unfold verdict. cbn [snd]. rewrite (terminal_disjoint _ Hko).
    unfold CommandFailed. now rewrite Hstatus, Hcontent.
Qed.

Lemma waiter_failure_without_content_witness :
  @Raised unit (Error "Command failed with status Failed: undefined")
  = Raised (Error ("Command failed with status " +:+ "Failed" +:+ ": undefined")).
Proof.
  eapply (waiter_failure_without_content failing_cloud (JsString "i-123") "cmd-1" fresh _ _ _
            [(SetTimeout 5000, Elapsed)]
            {| SSM.Status := Some "Failed"; SSM.StandardErrorContent := None |} []).
  - vm_compute. reflexivity.
  - reflexivity.
  - reflexivity.
  - reflexivity.
  - cbn. auto.
  - reflexivity.
Defined.

(** ** More on the Agent Provisioner *)

Section ProvisionerLog.
Context {W : Type}.
Variable aws : Collaborators W.
Variable instanceId : JsValue.
Variable text : string.
Hypothesis Htext : ToString instanceId = Some text.

Lemma dispatchAndAwait_Dispatched params (st : Run W) :
  exists st' res new,
    dispatchAndAwait aws instanceId params st = Some (st', res)
    /\ log st' = log st ++ new
    /\ Dispatched instanceId params new res.
Proof.
  unfold dispatchAndAwait, bind.
  destruct (promise_total (SendCommand params) (ssm_sendCommand aws params)
              CommandSent st) as (st1 & r1 & Hsend).
  fold (sendCommand aws params) in Hsend. rewrite Hsend.
  apply promise_inv in Hsend as [(e & _ & -> & Hlog)|(result & _ & -> & Hlog)].
  - eexists st1, _, _. split; [reflexivity|]. split; [exact Hlog|]. constructor.
  - destruct (commandIdOf result) as [commandId|] eqn:Hid.
    + destruct (waitForCommandCompletion_Polling aws instanceId commandId st1)
        as (st' & res & new & Hrun & Hlog' & Hpoll).
      eexists st', res, _. split; [exact Hrun|]. split.
      * rewrite Hlog', Hlog, <- app_assoc. reflexivity.
      * now apply Dispatched_awaited with (commandId := commandId).
    + eexists st1, _, _. split; [reflexivity|]. split; [exact Hlog|].
      now apply Dispatched_without_id.
Qed.

Lemma installCloudWatchAgent_Provisioned (st : Run W) :
  exists st' res new,
    installCloudWatchAgent aws instanceId st = Some (st', res)
    /\ log st' = log st ++ new
    /\ Provisioned instanceId text new res.
Proof.
  rewrite (installCloudWatchAgent_eq aws instanceId text Htext).
  destruct (dispatchAndAwait_Dispatched (installCommand instanceId) st)
    as (s1 & r1 & new1 & H1 & Hlog1 & Hd1).
  destruct r1 as [[]|e1].
  2:{ exists s1, (Raised e1), new1. rewrite (bind_raised _ _ _ _ _ H1).
      split; [reflexivity|]. split; [exact Hlog1|]. now constructor. }
  rewrite (bind_returned _ _ _ _ _ H1).
  destruct (promise_total (PutParameter (agentConfigParameter text))
              (ssm_putParameter aws (agentConfigParameter text))
              (fun _ => Ack) s1) as (s2 & r2 & H2).
  fold (putParameter aws (agentConfigParameter text)) in H2.
  pose proof H2 as H2'.
  apply promise_inv in H2' as [(e & _ & -> & Hlog2)|([] & _ & -> & Hlog2)].
  { eexists s2, (Raised e), _. rewrite (bind_raised _ _ _ _ _ H2).
    split; [reflexivity|]. split; [rewrite Hlog2, Hlog1, <- app_assoc; reflexivity|].
    now apply Provisioned_write_failed. }
  rewrite (bind_returned _ _ _ _ _ H2).
  destruct (dispatchAndAwait_Dispatched (configureCommand instanceId text) s2)
    as (s3 & r3 & new3 & H3 & Hlog3 & Hd3).
  eexists s3, r3, _. split; [exact H3|].
  split; [rewrite Hlog3, Hlog2, Hlog1, <- !app_assoc; reflexivity|].
  now apply Provisioned_configured.
Qed.
End ProvisionerLog.

Lemma Polling_succeeded instanceId commandId attempts l res :
  Polling instanceId commandId attempts l res ->
  res = Returned tt ->
  length (List.filter succeeded l) = 1
  /\ Forall (fun e => is_poll e = true -> retried e = true \/ succeeded e = true) l.
Proof.
  induction 1 as [a Ha|a r Ha Hok|a r Ha Hok Hko|a r rest res Ha Hok Hko Hrest IH
                 |a err rest res Ha Herr Hrest IH|a err Ha Herr];
    intros Hres; try discriminate.
  - unfold succeeded. cbn [List.filter snd]. rewrite Hok. split; [reflexivity|].
    apply Forall_cons_2; [|apply Forall_nil_2]. intros _. right. cbn. exact Hok.
  - destruct (IH Hres) as [Hcount Hall].
    unfold succeeded in *. cbn [List.filter snd]. rewrite Hok. split; [exact Hcount|].
    repeat (apply Forall_cons_2; [|]); [| |exact Hall].
    + intros _. left. unfold retried. cbn [snd]. now rewrite Hok, Hko.
    + discriminate.
  - destruct (IH Hres) as [Hcount Hall].
    unfold succeeded in *. cbn [List.filter snd]. split; [exact Hcount|].
    repeat (apply Forall_cons_2; [|]); [| |exact Hall].
    + intros _. left. unfold retried. cbn [snd]. exact Herr.
    + discriminate.
Qed.

Section DispatchedFacts.
Variable instanceId : JsValue.
Variable params : SSM.SendCommandRequest.

(** What a dispatch log holds: the dispatch itself, then only delays and
    polls of this instance for the command id the reply carried. *)
Lemma Dispatched_entries l res :
  Dispatched instanceId params l res ->
  exists reply rest,
    l = (SendCommand params, reply) :: rest
    /\ Forall (fun e =>
                 (exists ms, e = (SetTimeout ms, Elapsed))
                 \/ (exists result commandId,
                       reply = CommandSent result
                       /\ commandIdOf result = Some commandId
                       /\ fst e = pollCall instanceId commandId)) rest.
Proof.
  intros [e|result Hid|result commandId rest res' Hid Hpoll].
  - eexists _, []. split; [reflexivity|constructor].
  - eexists _, []. split; [reflexivity|constructor].
  - eexists _, _. split; [reflexivity|].
    apply Forall_cons_2; [left; eauto|].
    eapply Forall_impl; [apply (Polling_entries _ _ _ _ _ Hpoll)|].
    intros x [Hx| ->]; [right; eauto|left; eauto].
Qed.

Lemma Dispatched_budget l res :
  Dispatched instanceId params l res ->
  length (polls l) <= 30 /\ (0 <= delays l <= 305000)%Z /\ steps l = [SendCommand params].
Proof.
  intros [e|result Hid|result commandId rest res' Hid Hpoll]; cbn;
    try (split; [lia|split; [lia|reflexivity]]).
  fold (polls rest). fold (delays rest).
  pose proof (Polling_budget _ _ _ _ _ Hpoll) as Hbudget. unfold maxAttempts in Hbudget.
  destruct (Polling_delays _ _ _ _ _ Hpoll) as [Hdelays Hlast].
  assert (Hle : length (retriedPolls rest) <= length (polls rest))
    by apply List.filter_length_le.
  split; [lia|]. split; [lia|].
  change (steps ([(SendCommand params, CommandSent result); (SetTimeout 5000, Elapsed)]
                   ++ rest) = [SendCommand params]).
  now rewrite steps_app, (Polling_steps _ _ _ _ _ Hpoll).
Qed.

Lemma Dispatched_returned l :
  Dispatched instanceId params l (Returned tt) ->
  length (List.filter succeeded l) = length (List.filter awaited l)
  /\ Forall (fun e => is_poll e = true -> retried e = true \/ succeeded e = true) l.
Proof.
  intros Hd. inversion Hd as [|result Hid|result commandId rest res' Hid Hpoll]; subst.
  - unfold succeeded, awaited. cbn. rewrite Hid. split; [reflexivity|].
    apply Forall_cons_2; [discriminate|apply Forall_nil_2].
  - destruct (Polling_succeeded _ _ _ _ _ Hpoll eq_refl) as [Hcount Hall].
    assert (Hnone : List.filter awaited rest = [])
      by (clear Hd Hcount Hall; induction Hpoll; cbn; auto).
    split; [|repeat (apply Forall_cons_2; [discriminate|]); exact Hall].
    change ((SendCommand params, CommandSent result) :: (SetTimeout 5000, Elapsed) :: rest)
      with ([(SendCommand params, CommandSent result); (SetTimeout 5000, Elapsed)] ++ rest).
    unfold Entry in *. rewrite !List.filter_app, !length_app, Hnone, Hcount.
    unfold succeeded, awaited. cbn [List.filter snd length]. now rewrite Hid.
Qed.
End DispatchedFacts.

Lemma split_at_unique {A} (P : A -> Prop) (a b a' b' : list A) (x x' : A) :
  a ++ x :: b = a' ++ x' :: b' ->
  P x' ->
  Forall (fun y => ~ P y) a ->
  Forall (fun y => ~ P y) b ->
  a' = a.
Proof.
  revert a'. induction a as [|y a IH]; intros [|y' a'] Heq Hx' Ha Hb.
  - reflexivity.
  - injection Heq as -> ->. exfalso.
    rewrite Forall_forall in Hb. apply (Hb x'); [|exact Hx'].
    apply list_elem_of_In, in_or_app. right. now left.
  - injection Heq as <- _. exfalso. apply Forall_cons_1 in Ha as [Hy _]. now apply Hy.
  - injection Heq as <- Heq. apply Forall_cons_1 in Ha as [_ Ha].
    f_equal. now apply IH.
Qed.

Lemma install_is_not_configure instanceId text :
  installCommand instanceId <> configureCommand instanceId text.
Proof. unfold installCommand, configureCommand. intros [= H]. Qed.

Section ProvisionedFacts.
Variable instanceId : JsValue.
Variable text : string.

(** A dispatch log holds no dispatch but its own, and nothing that is not a
    dispatch, a poll or a delay. *)
Lemma Dispatched_calls params l res :
  Dispatched instanceId params l res ->
  Forall (fun e => match fst e with
                   | SendCommand p => p = params
                   | GetCommandInvocation q =>
                       SSM.gci_InstanceId q = instanceId
                       /\ exists result,
                            In (SendCommand params, CommandSent result) l
                            /\ commandIdOf result = Some (SSM.gci_CommandId q)
                   | SetTimeout _ => True
                   | _ => False
                   end) l.
Proof.
  intros Hd. destruct (Dispatched_entries _ _ _ _ Hd) as (reply & rest & -> & Hrest).
  apply Forall_cons_2; [reflexivity|].
  eapply Forall_impl; [exact Hrest|].
  intros [c r] [[ms [= -> ->]]|(result & commandId & -> & Hid & Hc)]; [exact I|].
  cbn in Hc. subst c. cbn. split; [reflexivity|]. exists result. split; [now left|exact Hid].
Qed.

Lemma Provisioned_calls l res :
  Provisioned instanceId text l res ->
  Forall (fun e => match fst e with
                   | SendCommand p =>
                       p = installCommand instanceId \/ p = configureCommand instanceId text
                   | GetCommandInvocation q =>
                       SSM.gci_InstanceId q = instanceId
                       /\ exists p result,
                            In (SendCommand p, CommandSent result) l
                            /\ commandIdOf result = Some (SSM.gci_CommandId q)
                   | PutParameter w => w = agentConfigParameter text
                   | SetTimeout _ => True
                   | _ => False
                   end) l.
Proof.
  assert (Hlift : forall params l0 res0 (k : list Entry -> list Entry),
             (forall e, In e l0 -> In e (k l0)) ->
             (params = installCommand instanceId \/ params = configureCommand instanceId text) ->
             Dispatched instanceId params l0 res0 ->
             Forall (fun e => match fst e with
                   | SendCommand p =>
                       p = installCommand instanceId \/ p = configureCommand instanceId text
                   | GetCommandInvocation q =>
                       SSM.gci_InstanceId q = instanceId
                       /\ exists p result,
                            In (SendCommand p, CommandSent result) (k l0)
                            /\ commandIdOf result = Some (SSM.gci_CommandId q)
                   | PutParameter w => w = agentConfigParameter text
                   | SetTimeout _ => True
                   | _ => False
                   end) l0).
  { intros params l0 res0 k Hk Hparams Hd.
    eapply Forall_impl; [apply (Dispatched_calls _ _ _ Hd)|].
    intros [[] r]; cbn; try tauto.
    - now intros ->.
    - intros [Hi (result & Hin & Hid)]. split; [exact Hi|]. eauto. }
  intros [l0 e Hd|l0 e Hd|l1 l2 res0 Hd1 Hd2].
  - exact (Hlift _ _ _ (fun x => x) (fun _ H => H) (or_introl eq_refl) Hd).
  - apply Forall_app. split.
    + exact (Hlift _ _ _ (fun x => x ++ _)
               (fun e0 H => in_or_app _ _ e0 (or_introl H)) (or_introl eq_refl) Hd).
    + apply Forall_cons_2; [reflexivity|apply Forall_nil_2].
  - apply Forall_app. split; [|apply Forall_cons_2; [reflexivity|]].
    + exact (Hlift _ _ _ (fun x => x ++ _)
               (fun e0 H => in_or_app _ _ e0 (or_introl H)) (or_introl eq_refl) Hd1).
    + exact (Hlift _ _ _ (fun x => l1 ++ _ :: x)
               (fun e0 H => in_or_app _ _ e0 (or_intror (in_cons _ _ _ H)))
               (or_intror eq_refl) Hd2).
Qed.

Lemma Provisioned_budget l res :
  Provisioned instanceId text l res ->
  length (polls l) <= 60 /\ (delays l <= 610000)%Z.
Proof.
  intros [l0 e Hd|l0 e Hd|l1 l2 res0 Hd1 Hd2].
  - destruct (Dispatched_budget _ _ _ _ Hd) as (? & ? & _). lia.
  - destruct (Dispatched_budget _ _ _ _ Hd) as (? & ? & _).
    rewrite polls_app, delays_app, length_app. cbn. lia.
  - destruct (Dispatched_budget _ _ _ _ Hd1) as (? & ? & _).
    destruct (Dispatched_budget _ _ _ _ Hd2) as (? & ? & _).
    change (l1 ++ (PutParameter (agentConfigParameter text), Ack) :: l2)
      with (l1 ++ [(PutParameter (agentConfigParameter text), Ack)] ++ l2).
    rewrite !polls_app, !delays_app, !length_app. cbn. lia.
Qed.

Lemma Provisioned_returned l :
  Provisioned instanceId text l (Returned tt) ->
  length (List.filter succeeded l) = length (List.filter awaited l)
  /\ Forall (fun e => is_poll e = true -> retried e = true \/ succeeded e = true) l.
Proof.
  intros Hp. inversion Hp as [| |l1 l2 res0 Hd1 Hd2]; subst.
  destruct (Dispatched_returned _ _ _ Hd1) as [Hc1 Ha1].
  destruct (Dispatched_returned _ _ _ Hd2) as [Hc2 Ha2].
  split.
  - change (l1 ++ (PutParameter (agentConfigParameter text), Ack) :: l2)
      with (l1 ++ [(PutParameter (agentConfigParameter text), Ack)] ++ l2).
    unfold Entry in *. rewrite !List.filter_app, !length_app, Hc1, Hc2. reflexivity.
  - apply Forall_app. split; [exact Ha1|]. apply Forall_cons_2; [discriminate|exact Ha2].
Qed.

(** The configure dispatch comes right after the acknowledged write. *)
Lemma Provisioned_configure_split l res before r after :
  Provisioned instanceId text l res ->
  l = before ++ (SendCommand (configureCommand instanceId text), r) :: after ->
  In (PutParameter (agentConfigParameter text), Ack) before.
Proof.
  assert (Hnot : forall l0 res0,
             Dispatched instanceId (installCommand instanceId) l0 res0 ->
             Forall (fun y : Entry => fst y <> SendCommand (configureCommand instanceId text)) l0).
  { intros l0 res0 Hd. eapply Forall_impl; [apply (Dispatched_calls _ _ _ Hd)|].
    intros [[] r0]; cbn; try discriminate.
    intros -> Heq. apply (install_is_not_configure instanceId text). congruence. }
  assert (Hin : forall (l0 : list Entry),
             Forall (fun y : Entry => fst y <> SendCommand (configureCommand instanceId text)) l0 ->
             ~ In (SendCommand (configureCommand instanceId text), r) l0).
  { intros l0 Hl0 Hx. rewrite Forall_forall in Hl0.
    apply (Hl0 _ (proj2 (list_elem_of_In _ _) Hx)). reflexivity. }
  intros [l0 e Hd|l0 e Hd|l1 l2 res0 Hd1 Hd2] Heq.
  - exfalso. apply (Hin l0 (Hnot _ _ Hd)). rewrite Heq. apply in_or_app. right. now left.
  - exfalso.
    assert (Hx : In (SendCommand (configureCommand instanceId text), r)
                   (l0 ++ [(PutParameter (agentConfigParameter text), Rejected e)]))
      by (rewrite Heq; apply in_or_app; right; now left).
    apply in_app_or in Hx as [Hx|[Hx|[]]]; [|discriminate].
    now apply (Hin l0 (Hnot _ _ Hd)).
  - destruct (Dispatched_entries _ _ _ _ Hd2) as (reply & rest & -> & Hrest).
    assert (Hbefore : before = l1 ++ [(PutParameter (agentConfigParameter text), Ack)]).
    { apply (split_at_unique
               (fun y : Entry => fst y = SendCommand (configureCommand instanceId text))
               (l1 ++ [(PutParameter (agentConfigParameter text), Ack)]) rest
               before after (SendCommand (configureCommand instanceId text), reply)
               (SendCommand (configureCommand instanceId text), r)).
      - etransitivity; [|exact Heq]. now rewrite <- app_assoc.
      - reflexivity.
      - apply Forall_app. split; [apply (Hnot _ _ Hd1)|].
        apply Forall_cons_2; [discriminate|apply Forall_nil_2].
      - eapply Forall_impl; [exact Hrest|].
        intros [c r0] [[ms [= -> ->]]|(result & commandId & _ & _ & Hc)];
          cbn in *; [discriminate|subst c; discriminate]. }
    rewrite Hbefore. apply in_or_app. right. now left.
Qed.
End ProvisionedFacts.

(** X6: in a run of the provisioner every command is sent to the one
    instance, as an install or a configure command, and every poll asks
    about that instance and about a command id that the reply to a dispatch
    of the same run carried. *)
Theorem provision_targets {W} (aws : Collaborators W) (instanceId : string)
    (st st' : Run W) res new :
  installCloudWatchAgent aws (JsString instanceId) st = Some (st', res) ->
  log st' = log st ++ new ->
  (forall p r, In (SendCommand p, r) new ->
               SSM.InstanceIds p = [JsString instanceId]
               /\ (p = installCommand (JsString instanceId)
                   \/ p = configureCommand (JsString instanceId) instanceId))
  /\ (forall q r, In (GetCommandInvocation q, r) new ->
                  SSM.gci_InstanceId q = JsString instanceId
                  /\ exists p result,
                       In (SendCommand p, CommandSent result) new
                       /\ commandIdOf result = Some (SSM.gci_CommandId q)).
Proof.
  intros Hrun Hlog.
  destruct (installCloudWatchAgent_Provisioned aws (JsString instanceId) instanceId eq_refl st)
    as (st1 & res1 & new1 & Hrun1 & Hlog1 & Hprov).
  rewrite Hrun in Hrun1. injection Hrun1 as <- <-.
  rewrite Hlog in Hlog1. apply app_inv_head in Hlog1. subst new1.
  pose proof (Provisioned_calls _ _ _ _ Hprov) as Hcalls. rewrite Forall_forall in Hcalls.
  split.
  - intros p r Hin. apply list_elem_of_In, Hcalls in Hin. cbn in Hin.
    split; [destruct Hin as [-> | ->]; reflexivity|exact Hin].
  - intros q r Hin. apply list_elem_of_In, Hcalls in Hin. exact Hin.
Qed.

Lemma provision_targets_witness :
  SSM.gci_InstanceId {| SSM.gci_CommandId := "cmd-1"; SSM.gci_InstanceId := JsString "i-123" |}
  = JsString "i-123"
  /\ exists p result,
       In (SendCommand p, CommandSent result)
          [(SendCommand (installCommand (JsString "i-123")), CommandSent (sent_with "cmd-1"));
           (SetTimeout 5000, Elapsed);
           (pollCall (JsString "i-123") "cmd-1",
            Invocation {| SSM.Status := Some "Success";
                          SSM.StandardErrorContent := Some "" |});
           (PutParameter (agentConfigParameter "i-123"), Ack);
           (SendCommand (configureCommand (JsString "i-123") "i-123"),
            CommandSent (sent_with "cmd-1"));
           (SetTimeout 5000, Elapsed);
           (pollCall (JsString "i-123") "cmd-1",
            Invocation {| SSM.Status := Some "Success";
                          SSM.StandardErrorContent := Some "" |})]
       /\ commandIdOf result
          = Some (SSM.gci_CommandId
                    {| SSM.gci_CommandId := "cmd-1"; SSM.gci_InstanceId := JsString "i-123" |}).
Proof.
  refine (proj2 (provision_targets happy_cloud "i-123" fresh
                   {| world := ∅; log := _ |} (Returned tt) _ _ _) _
                (Invocation {| SSM.Status := Some "Success";
                               SSM.StandardErrorContent := Some "" |}) _).
  - vm_compute. reflexivity.
  - reflexivity.
  - right. right. now left.
Defined.

(** X7: wherever the configure command stands in the log of a run of the
    provisioner, the write of the parameter it names as its configuration
    location stands before it, acknowledged, and made with overwrite. *)
Theorem provision_configures_after_write {W} (aws : Collaborators W)
    (instanceId : string)
    (st st' : Run W) res new before r after :
  installCloudWatchAgent aws (JsString instanceId) st = Some (st', res) ->
  log st' = log st ++ new ->
  new = before ++ (SendCommand (configureCommand (JsString instanceId) instanceId), r) :: after ->
  exists w,
    In (PutParameter w, Ack) before
    /\ SSM.Overwrite w = true
    /\ In ("optionalConfigurationLocation", [SSM.Name w])
          (SSM.Parameters (configureCommand (JsString instanceId) instanceId))
    /\ In ("optionalConfigurationSource", ["ssm"])
          (SSM.Parameters (configureCommand (JsString instanceId) instanceId)).
Proof.
  intros Hrun Hlog Hsplit.
  destruct (installCloudWatchAgent_Provisioned aws (JsString instanceId) instanceId eq_refl st)
    as (st1 & res1 & new1 & Hrun1 & Hlog1 & Hprov).
  rewrite Hrun in Hrun1. injection Hrun1 as <- <-.
  rewrite Hlog in Hlog1. apply app_inv_head in Hlog1. subst new1.
  exists (agentConfigParameter instanceId).
  split; [exact (Provisioned_configure_split _ _ _ _ _ _ _ Hprov Hsplit)|].
  split; [reflexivity|]. cbn. auto 6.
Qed.

Lemma provision_configures_after_write_witness :
  exists w,
    In (PutParameter w, Ack)
       [(SendCommand (installCommand (JsString "i-123")), CommandSent (sent_with "cmd-1"));
        (SetTimeout 5000, Elapsed);
        (pollCall (JsString "i-123") "cmd-1",
         Invocation {| SSM.Status := Some "Success"; SSM.StandardErrorContent := Some "" |});
        (PutParameter (agentConfigParameter "i-123"), Ack)]
    /\ SSM.Overwrite w = true
    /\ In ("optionalConfigurationLocation", [SSM.Name w])
          (SSM.Parameters (configureCommand (JsString "i-123") "i-123"))
    /\ In ("optionalConfigurationSource", ["ssm"])
          (SSM.Parameters (configureCommand (JsString "i-123") "i-123")).
Proof.
  eapply (provision_configures_after_write happy_cloud "i-123" fresh
            {| world := ∅; log := _ |} (Returned tt) _ _
            (CommandSent (sent_with "cmd-1"))
            [(SetTimeout 5000, Elapsed);
             (pollCall (JsString "i-123") "cmd-1",
              Invocation {| SSM.Status := Some "Success";
                            SSM.StandardErrorContent := Some "" |})]).
  - vm_compute. reflexivity.
  - reflexivity.
  - reflexivity.
Defined.

(** X8: a run of the provisioner always ends; it calls nothing but the
    timer, the command dispatch, the command poll and the parameter write,
    so it never describes an instance and never puts or deletes an alarm; it
    makes at most 60 polls and asks the timer for at most 610000 ms. *)
Theorem provision_footprint {W} (aws : Collaborators W) (instanceId : string)
    (st : Run W) :
  exists st' res new,
    installCloudWatchAgent aws (JsString instanceId) st = Some (st', res)
    /\ log st' = log st ++ new
    /\ Forall (fun e => match fst e with
                        | SetTimeout _ | SendCommand _
                        | GetCommandInvocation _ | PutParameter _ => True
                        | DescribeInstances _ | PutMetricAlarm _ | DeleteAlarms _ => False
                        end) new
    /\ length (polls new) <= 60
    /\ (delays new <= 610000)%Z.
Proof.
  destruct (installCloudWatchAgent_Provisioned aws (JsString instanceId) instanceId eq_refl st)
    as (st' & res & new & Hrun & Hlog & Hprov).
  exists st', res, new. split; [exact Hrun|]. split; [exact Hlog|].
  split; [|apply (Provisioned_budget _ _ _ _ Hprov)].
  eapply Forall_impl; [apply (Provisioned_calls _ _ _ _ Hprov)|].
  intros [[] r]; cbn; tauto.
Qed.

(** X9: the provisioner returns only when every dispatch whose reply
    carried a command id was followed to a poll answered Success or
    Complete: in the log of a run that returns there are as many such polls
    as such dispatches, and every other poll is one that was retried. *)
Theorem provision_returns_after_success {W} (aws : Collaborators W)
    (instanceId : string)
    (st st' : Run W) new :
  installCloudWatchAgent aws (JsString instanceId) st = Some (st', Returned tt) ->
  log st' = log st ++ new ->
  length (List.filter succeeded new) = length (List.filter awaited new)
  /\ Forall (fun e => is_poll e = true -> retried e = true \/ succeeded e = true) new
  /\ steps new = [SendCommand (installCommand (JsString instanceId));
                  PutParameter (agentConfigParameter instanceId);
                  SendCommand (configureCommand (JsString instanceId) instanceId)].
Proof.
  intros Hrun Hlog.
  destruct (installCloudWatchAgent_Provisioned aws (JsString instanceId) instanceId eq_refl st)
    as (st1 & res1 & new1 & Hrun1 & Hlog1 & Hprov).
  rewrite Hrun in Hrun1. injection Hrun1 as <- <-.
  rewrite Hlog in Hlog1. apply app_inv_head in Hlog1. subst new1.
  destruct (Provisioned_returned _ _ _ Hprov) as [Hcount Hall].
  split; [exact Hcount|]. split; [exact Hall|].
  inversion Hprov as [| |l1 l2 res0 Hd1 Hd2]; subst.
  destruct (Dispatched_budget _ _ _ _ Hd1) as (_ & _ & Hs1).
  destruct (Dispatched_budget _ _ _ _ Hd2) as (_ & _ & Hs2).
  change (l1 ++ (PutParameter (agentConfigParameter instanceId), Ack) :: l2)
    with (l1 ++ [(PutParameter (agentConfigParameter instanceId), Ack)] ++ l2).
  now rewrite !steps_app, Hs1, Hs2.
Qed.

Lemma provision_returns_after_success_witness :
  exists new,
    length (List.filter succeeded new) = 2
    /\ length (List.filter succeeded new) = length (List.filter awaited new).
Proof.
  eexists. split; cycle 1.
  - eapply (provision_returns_after_success slow_cloud "i-123"
              {| world := 1; log := [] |} {| world := 0; log := _ |}).
    + vm_compute. reflexivity.
    + reflexivity.
  - reflexivity.
Defined.

(** ** More on the Alarm Reconciler *)

Lemma cpu_name_is_not_memory_name i j : "CPU-High-" +:+ i <> "Memory-High-" +:+ j.
Proof. discriminate. Qed.

Lemma alarmNames_apart i j n :
  i <> j -> In n (alarmNames i) -> ~ In n (alarmNames j).
Proof.
  intros Hij Hi Hj. apply (alarmNames_NoDup i j) in Hij.
  apply NoDup_app in Hij as (_ & Hdisjoint & _).
  apply (Hdisjoint n); now apply list_elem_of_In.
Qed.

Section StoreRuns.
Variable aws : Collaborators (gmap string CloudWatch.PutMetricAlarmInput).
Variable instanceId : JsValue.
Variable text : string.
Hypothesis Htext : ToString instanceId = Some text.
Variable snsTopicArn : string.

Lemma deleteAlarms_store (s : Run (gmap string CloudWatch.PutMetricAlarmInput)) :
  cloudwatch_deleteAlarms aws = store_delete ->
  deleteAlarms aws instanceId s
  = Some ({| world := delete ("CPU-High-" +:+ text)
                        (delete ("Memory-High-" +:+ text) (world s));
             log := log s ++ [(DeleteAlarms ["CPU-High-" +:+ text;
                                             "Memory-High-" +:+ text], Ack)] |},
          Returned tt).
Proof.
  intros Hcontract. unfold deleteAlarms. rewrite try_catch_rethrow.
  rewrite (bind_returned _ _ _ _ _ (interpolate_text instanceId text s Htext)).
  unfold cloudwatchDeleteAlarms, promise. rewrite Hcontract. reflexivity.
Qed.

(** The four ways a run of [createAlarms] can go against such a backend,
    with the store each leaves. *)
Lemma createAlarms_store (st st' : Run (gmap string CloudWatch.PutMetricAlarmInput)) r :
  upserts_or_rejects aws ->
  describe_leaves_store aws ->
  createAlarms aws instanceId snsTopicArn st = Some (st', r) ->
  exists reply,
    (exists e, r = Raised e /\ world st' = world st
               /\ log st' = log st ++ [(DescribeInstances [instanceId], reply)])
    \/ (exists e, r = Raised e /\ world st' = world st
                  /\ log st' = log st
                       ++ [(DescribeInstances [instanceId], reply);
                           (PutMetricAlarm (cpuAlarmFor instanceId text snsTopicArn),
                            Rejected e)])
    \/ (exists e info,
          r = Raised e
          /\ world st' = <["CPU-High-" +:+ text := cpuAlarmFor instanceId text snsTopicArn]>
                           (world st)
          /\ log st' = log st
               ++ [(DescribeInstances [instanceId], reply);
                   (PutMetricAlarm (cpuAlarmFor instanceId text snsTopicArn), Ack);
                   (PutMetricAlarm (memoryAlarmFor instanceId text snsTopicArn info),
                    Rejected e)])
    \/ (exists info,
          r = Returned tt
          /\ resolved text (snd (ec2_describeInstances aws [instanceId] (world st)))
             = Returned info
          /\ world st'
             = <["Memory-High-" +:+ text
                 := memoryAlarmFor instanceId text snsTopicArn info]>
                 (<["CPU-High-" +:+ text := cpuAlarmFor instanceId text snsTopicArn]>
                    (world st))
          /\ log st' = log st
               ++ [(DescribeInstances [instanceId], reply);
                   (PutMetricAlarm (cpuAlarmFor instanceId text snsTopicArn), Ack);
                   (PutMetricAlarm (memoryAlarmFor instanceId text snsTopicArn info), Ack)]).
Proof.
  intros Hput Hdescribe Hrun.
  pose proof (getInstanceInfo_eq aws instanceId text Htext st) as Hinfo.
  rewrite (Hdescribe [instanceId] (world st)) in Hinfo.
  eexists.
  destruct (resolved text _) as [info|e] eqn:Hres.
  2:{ rewrite (createAlarms_lookup_failed aws _ snsTopicArn _ _ _ Hinfo) in Hrun.
      injection Hrun as <- <-. left. eauto. }
  rewrite (createAlarms_puts aws _ _ Htext snsTopicArn _ _ _ Hinfo) in Hrun.
  cbn [world log] in Hrun.
  destruct (Hput (cpuAlarmFor instanceId text snsTopicArn) (world st)) as [Hcpu|[e Hcpu]];
    rewrite Hcpu in Hrun.
  2:{ injection Hrun as <- <-. right. left. exists e. rewrite <- app_assoc. auto. }
  unfold store_put at 1 in Hrun. cbn [CloudWatch.AlarmName cpuAlarmFor] in Hrun.
  destruct (Hput (memoryAlarmFor instanceId text snsTopicArn info)
              (<["CPU-High-" +:+ text := cpuAlarmFor instanceId text snsTopicArn]>
                 (world st))) as [Hmem|[e Hmem]];
    rewrite Hmem in Hrun.
  - unfold store_put in Hrun. cbn [CloudWatch.AlarmName memoryAlarmFor] in Hrun.
    injection Hrun as <- <-. right. right. right. exists info.
    rewrite <- !app_assoc. auto.
  - injection Hrun as <- <-. right. right. left. exists e, info.
    rewrite <- !app_assoc. auto.
Qed.
End StoreRuns.

(** X10: against a backend whose put is an upsert, a run of createAlarms
    that returns leaves the CPU alarm it put stored under CPU-High-<id> and
    the memory alarm it put stored under Memory-High-<id>, the latter
    dimensioned by what the describe call answered. *)
Theorem createAlarms_stores_both
    (aws : Collaborators (gmap string CloudWatch.PutMetricAlarmInput))
    (instanceId target : string)
    (st st' : Run (gmap string CloudWatch.PutMetricAlarmInput)) :
  upserts_or_rejects aws ->
  describe_leaves_store aws ->
  createAlarms aws (JsString instanceId) target st = Some (st', Returned tt) ->
  exists info,
    resolved instanceId (snd (ec2_describeInstances aws [JsString instanceId] (world st)))
    = Returned info
    /\ world st' !! ("CPU-High-" +:+ instanceId)
       = Some (cpuAlarmFor (JsString instanceId) instanceId target)
    /\ world st' !! ("Memory-High-" +:+ instanceId)
       = Some (memoryAlarmFor (JsString instanceId) instanceId target info)
    /\ CloudWatch.Threshold (cpuAlarmFor (JsString instanceId) instanceId target) = 80%Z
    /\ CloudWatch.Threshold (memoryAlarmFor (JsString instanceId) instanceId target info) = 75%Z.
Proof.
  intros Hput Hdescribe Hrun.
  destruct (createAlarms_store aws (JsString instanceId) instanceId eq_refl _ _ _ _
              Hput Hdescribe Hrun)
    as (reply & [(e & [=] & _)|[(e & [=] & _)|[(e & info & [=] & _)
                |(info & _ & Hres & -> & _)]]]).
  exists info. split; [exact Hres|].
  rewrite lookup_insert_ne by (intros H; symmetry in H; now apply cpu_name_is_not_memory_name in H).
  rewrite !lookup_insert_eq. auto.
Qed.

Lemma createAlarms_stores_both_witness :
  exists info,
    resolved "i-123"
      (snd (ec2_describeInstances happy_cloud [JsString "i-123"] (world fresh)))
    = Returned info
    /\ world (state_after (createAlarms happy_cloud (JsString "i-123") "topic") fresh)
         !! ("CPU-High-" +:+ "i-123")
       = Some (cpuAlarmFor (JsString "i-123") "i-123" "topic")
    /\ world (state_after (createAlarms happy_cloud (JsString "i-123") "topic") fresh)
         !! ("Memory-High-" +:+ "i-123")
       = Some (memoryAlarmFor (JsString "i-123") "i-123" "topic" info)
    /\ CloudWatch.Threshold (cpuAlarmFor (JsString "i-123") "i-123" "topic") = 80%Z
    /\ CloudWatch.Threshold (memoryAlarmFor (JsString "i-123") "i-123" "topic" info)
       = 75%Z.
Proof.
  eapply (createAlarms_stores_both happy_cloud "i-123" "topic" fresh).
  - intros a w. left. reflexivity.
  - intros ids w. reflexivity.
  - vm_compute. reflexivity.
Defined.

(** X11: against such a backend, with a describe call that answers the same
    whatever the store holds, two runs of createAlarms that both return
    leave the store as the first left it. *)
Theorem createAlarms_twice
    (aws : Collaborators (gmap string CloudWatch.PutMetricAlarmInput))
    (instanceId target : string)
    (st st1 st2 : Run (gmap string CloudWatch.PutMetricAlarmInput)) :
  upserts_or_rejects aws ->
  describe_leaves_store aws ->
  describe_is_stable aws ->
  createAlarms aws (JsString instanceId) target st = Some (st1, Returned tt) ->
  createAlarms aws (JsString instanceId) target st1 = Some (st2, Returned tt) ->
  world st2 = world st1.
Proof.
  intros Hput Hdescribe Hstable Hrun1 Hrun2.
  destruct (createAlarms_store aws (JsString instanceId) instanceId eq_refl _ _ _ _
              Hput Hdescribe Hrun1)
    as (reply1 & [(e & [=] & _)|[(e & [=] & _)|[(e & info & [=] & _)
                 |(info1 & _ & Hres1 & Hw1 & _)]]]).
  destruct (createAlarms_store aws (JsString instanceId) instanceId eq_refl _ _ _ _
              Hput Hdescribe Hrun2)
    as (reply2 & [(e & [=] & _)|[(e & [=] & _)|[(e & info & [=] & _)
                 |(info2 & _ & Hres2 & Hw2 & _)]]]).
  rewrite (Hstable _ _ (world st)), Hres1 in Hres2. injection Hres2 as <-.
  rewrite Hw2, Hw1. apply map_eq. intros k.
  rewrite !lookup_insert. repeat case_decide; reflexivity.
Qed.

Lemma createAlarms_twice_witness :
  world (state_after (createAlarms happy_cloud (JsString "i-123") "topic")
           (state_after (createAlarms happy_cloud (JsString "i-123") "topic") fresh))
  = world (state_after (createAlarms happy_cloud (JsString "i-123") "topic") fresh).
Proof.
  eapply (createAlarms_twice happy_cloud "i-123" "topic" fresh).
  - intros a w. left. reflexivity.
  - intros ids w. reflexivity.
  - intros ids w w'. reflexivity.
  - vm_compute. reflexivity.
  - vm_compute. reflexivity.
Defined.

(** X12: against such a backend, deleteAlarms run after createAlarms leaves
    the store as deleteAlarms alone would have left it, however createAlarms
    ended, after both puts, after the CPU put alone or after none; when
    neither alarm was there before, the store is back as it was. *)
Theorem deleteAlarms_undoes_createAlarms
    (aws : Collaborators (gmap string CloudWatch.PutMetricAlarmInput))
    (instanceId target : string)
    (st st1 : Run (gmap string CloudWatch.PutMetricAlarmInput)) r :
  upserts_or_rejects aws ->
  describe_leaves_store aws ->
  cloudwatch_deleteAlarms aws = store_delete ->
  createAlarms aws (JsString instanceId) target st = Some (st1, r) ->
  exists st2 st0,
    deleteAlarms aws (JsString instanceId) st1 = Some (st2, Returned tt)
    /\ deleteAlarms aws (JsString instanceId) st = Some (st0, Returned tt)
    /\ world st2 = world st0
    /\ (world st !! ("CPU-High-" +:+ instanceId) = None ->
        world st !! ("Memory-High-" +:+ instanceId) = None ->
        world st2 = world st).
Proof.
  intros Hput Hdescribe Hdelete Hrun.
  eexists _, _.
  split; [exact (deleteAlarms_store aws (JsString instanceId) instanceId eq_refl _ Hdelete)|].
  split; [exact (deleteAlarms_store aws (JsString instanceId) instanceId eq_refl _ Hdelete)|].
  cbn [world].
  assert (Hsame : delete ("CPU-High-" +:+ instanceId)
                    (delete ("Memory-High-" +:+ instanceId) (world st1))
                  = delete ("CPU-High-" +:+ instanceId)
                      (delete ("Memory-High-" +:+ instanceId) (world st))).
  { destruct (createAlarms_store aws (JsString instanceId) instanceId eq_refl _ _ _ _
              Hput Hdescribe Hrun)
      as (reply & [(e & _ & -> & _)|[(e & _ & -> & _)|[(e & info & _ & -> & _)
                  |(info & _ & _ & -> & _)]]]); try reflexivity;
      apply map_eq; intros k; rewrite !lookup_delete, ?lookup_insert, ?lookup_delete;
      repeat case_decide; congruence. }
  split; [exact Hsame|]. intros Hcpu Hmem. rewrite Hsame.
  rewrite (delete_id (world st) ("Memory-High-" +:+ instanceId)) by assumption.
  now apply delete_id.
Qed.

Lemma deleteAlarms_undoes_createAlarms_witness :
  exists st2 st0,
    deleteAlarms memory_rejecting_cloud (JsString "i-123")
      (state_after (createAlarms memory_rejecting_cloud (JsString "i-123") "topic") fresh)
    = Some (st2, Returned tt)
    /\ deleteAlarms memory_rejecting_cloud (JsString "i-123") fresh
       = Some (st0, Returned tt)
    /\ world st2 = world st0
    /\ (world fresh !! ("CPU-High-" +:+ "i-123") = None ->
        world fresh !! ("Memory-High-" +:+ "i-123") = None ->
        world st2 = world fresh).
Proof.
  eapply (deleteAlarms_undoes_createAlarms memory_rejecting_cloud "i-123" "topic" fresh
            _ (Raised (AWSError (Some "LimitExceeded") None))).
  - intros a w. unfold memory_rejecting_cloud. cbn.
    destruct (String.eqb (CloudWatch.Namespace a) "CWAgent");
      [right; eexists; reflexivity|left; reflexivity].
  - intros ids w. reflexivity.
  - reflexivity.
  - vm_compute. reflexivity.
Defined.

(** X13: against such a backend, neither createAlarms nor deleteAlarms for
    an instance changes what the store holds under any name other than the
    two names of that instance; in particular the alarms of every other
    instance stay as they were. *)
Theorem reconciler_keeps_to_its_names
    (aws : Collaborators (gmap string CloudWatch.PutMetricAlarmInput))
    (instanceId target : string)
    (st st' : Run (gmap string CloudWatch.PutMetricAlarmInput)) r :
  upserts_or_rejects aws ->
  describe_leaves_store aws ->
  cloudwatch_deleteAlarms aws = store_delete ->
  createAlarms aws (JsString instanceId) target st = Some (st', r)
  \/ deleteAlarms aws (JsString instanceId) st = Some (st', r) ->
  (forall n, ~ In n (alarmNames instanceId) -> world st' !! n = world st !! n)
  /\ (forall other n,
        other <> instanceId -> In n (alarmNames other) -> world st' !! n = world st !! n).
Proof.
  intros Hput Hdescribe Hdelete Hrun.
  assert (Hframe : forall n, ~ In n (alarmNames instanceId) ->
                             world st' !! n = world st !! n).
  { intros n Hn.
    assert (Hcpu : "CPU-High-" +:+ instanceId <> n) by (intros <-; apply Hn; now left).
    assert (Hmem : "Memory-High-" +:+ instanceId <> n)
      by (intros <-; apply Hn; right; now left).
    destruct Hrun as [Hrun|Hrun].
    - destruct (createAlarms_store aws (JsString instanceId) instanceId eq_refl _ _ _ _
              Hput Hdescribe Hrun)
        as (reply & [(e & _ & -> & _)|[(e & _ & -> & _)|[(e & info & _ & -> & _)
                    |(info & _ & _ & -> & _)]]]);
        rewrite ?lookup_insert_ne by assumption; reflexivity.
    - rewrite (deleteAlarms_store aws (JsString instanceId) instanceId eq_refl st Hdelete) in Hrun.
      injection Hrun as <- _. cbn [world].
      now rewrite !lookup_delete_ne by assumption. }
  split; [exact Hframe|].
  intros other n Hother Hn. apply Hframe. now apply (alarmNames_apart other instanceId).
Qed.

Lemma reconciler_keeps_to_its_names_witness :
  world (state_after (deleteAlarms happy_cloud (JsString "i-2"))
           (state_after (createAlarms happy_cloud (JsString "i-1") "topic") fresh))
    !! "CPU-High-i-1"
  = world (state_after (createAlarms happy_cloud (JsString "i-1") "topic") fresh)
      !! "CPU-High-i-1".
Proof.
  eapply (proj2 (reconciler_keeps_to_its_names happy_cloud "i-2" "topic" _ _ (Returned tt)
                   (fun a w => or_introl eq_refl) (fun ids w => eq_refl) eq_refl
                   (or_intror _)) "i-1").
  - discriminate.
  - now left.
  Unshelve. vm_compute. reflexivity.
Defined.

(** X14: createAlarms undoes nothing.  When the memory put is rejected
    after the CPU put was acknowledged, it raises that rejection, the CPU
    alarm stays stored, what the store held under the memory alarm's name is
    as before, and no delete call has been made. *)
Theorem createAlarms_keeps_cpu_alarm
    (aws : Collaborators (gmap string CloudWatch.PutMetricAlarmInput))
    (instanceId target : string)
    (st st' : Run (gmap string CloudWatch.PutMetricAlarmInput)) e new :
  upserts_or_rejects aws ->
  describe_leaves_store aws ->
  createAlarms aws (JsString instanceId) target st = Some (st', Raised e) ->
  log st' = log st ++ new ->
  In (PutMetricAlarm (cpuAlarmFor (JsString instanceId) instanceId target), Ack) new ->
  (exists info,
     In (PutMetricAlarm (memoryAlarmFor (JsString instanceId) instanceId target info),
         Rejected e) new)
  /\ world st' !! ("CPU-High-" +:+ instanceId)
     = Some (cpuAlarmFor (JsString instanceId) instanceId target)
  /\ world st' !! ("Memory-High-" +:+ instanceId)
     = world st !! ("Memory-High-" +:+ instanceId)
  /\ deletedNames new = [].
Proof.
  intros Hput Hdescribe Hrun Hlog Hack.
  destruct (createAlarms_store aws (JsString instanceId) instanceId eq_refl _ _ _ _
              Hput Hdescribe Hrun)
    as (reply & [(e' & _ & _ & Hlog')|[(e' & _ & _ & Hlog')|[(e' & info & Hr & Hw & Hlog')
                |(info & [=] & _)]]]);
    rewrite Hlog in Hlog'; apply app_inv_head in Hlog'; subst new.
  - exfalso. destruct Hack as [H|[]]. discriminate H.
  - exfalso. destruct Hack as [H|[H|[]]]; discriminate H.
  - injection Hr as <-. split; [exists info; right; right; now left|].
    rewrite Hw, lookup_insert_eq.
    rewrite lookup_insert_ne by apply cpu_name_is_not_memory_name. auto.
Qed.

Lemma createAlarms_keeps_cpu_alarm_witness :
  (exists info,
     In (PutMetricAlarm (memoryAlarmFor (JsString "i-123") "i-123" "topic" info),
         Rejected (AWSError (Some "LimitExceeded") None))
        (log (state_after
                (createAlarms memory_rejecting_cloud (JsString "i-123") "topic") fresh)))
  /\ world (state_after
              (createAlarms memory_rejecting_cloud (JsString "i-123") "topic") fresh)
       !! ("CPU-High-" +:+ "i-123")
     = Some (cpuAlarmFor (JsString "i-123") "i-123" "topic")
  /\ world (state_after
              (createAlarms memory_rejecting_cloud (JsString "i-123") "topic") fresh)
       !! ("Memory-High-" +:+ "i-123")
     = world fresh !! ("Memory-High-" +:+ "i-123")
  /\ deletedNames
       (log (state_after
               (createAlarms memory_rejecting_cloud (JsString "i-123") "topic") fresh))
     = [].
Proof.
  eapply (createAlarms_keeps_cpu_alarm memory_rejecting_cloud "i-123" "topic" fresh).
  - intros a w. unfold memory_rejecting_cloud. cbn.
    destruct (String.eqb (CloudWatch.Namespace a) "CWAgent");
      [right; eexists; reflexivity|left; reflexivity].
  - intros ids w. reflexivity.
  - vm_compute. reflexivity.
  - reflexivity.
  - vm_compute. right. left. reflexivity.
Defined.

(** ** What the logs of the Reconciler and of the handler hold *)

Section ReconcilerLog.
Context {W : Type}.
Variable aws : Collaborators W.
Variable instanceId : JsValue.
Variable text : string.
Hypothesis Htext : ToString instanceId = Some text.
Variable snsTopicArn : string.

(** Every run of [createAlarms]: the describe call and then none, one or
    both of the puts. *)
Lemma createAlarms_log (st : Run W) :
  exists st' r reply puts,
    createAlarms aws instanceId snsTopicArn st = Some (st', r)
    /\ log st' = log st ++ (DescribeInstances [instanceId], reply) :: puts
    /\ ((exists e, r = Raised e /\ puts = []
                   /\ (reply = Rejected e
                       \/ e = LookupError text /\ exists result, reply = Described result))
        \/ (exists e,
              r = Raised e
              /\ puts = [(PutMetricAlarm (cpuAlarmFor instanceId text snsTopicArn),
                          Rejected e)])
        \/ (exists info e,
              r = Raised e
              /\ puts = [(PutMetricAlarm (cpuAlarmFor instanceId text snsTopicArn), Ack);
                         (PutMetricAlarm (memoryAlarmFor instanceId text snsTopicArn info),
                          Rejected e)])
        \/ (exists info,
              r = Returned tt
              /\ puts = [(PutMetricAlarm (cpuAlarmFor instanceId text snsTopicArn), Ack);
                         (PutMetricAlarm (memoryAlarmFor instanceId text snsTopicArn info),
                          Ack)])).
Proof.
  pose proof (getInstanceInfo_eq aws instanceId text Htext st) as Hinfo.
  destruct (resolved text _) as [info|e] eqn:Hres.
  2:{ eexists _, _, _, []. split; [exact (createAlarms_lookup_failed aws _ _ _ _ _ Hinfo)|].
      split; [reflexivity|]. left. exists e. split; [reflexivity|]. split; [reflexivity|].
      unfold resolved in Hres.
      destruct (snd (ec2_describeInstances aws [instanceId] (world st))) as [e'|result].
      - left. congruence.
      - right. split; [|eauto].
        destruct (firstInstance result) as [i|]; [|congruence].
        destruct (truthy_field _ && truthy_field _); congruence. }
  rewrite (createAlarms_puts aws _ _ Htext snsTopicArn _ _ _ Hinfo). cbn [world log].
  destruct (cloudwatch_putMetricAlarm aws (cpuAlarmFor instanceId text snsTopicArn) _)
    as [w2 [e|[]]].
  { eexists _, _, _, _. split; [reflexivity|]. cbn [log].
    split; [rewrite <- app_assoc; reflexivity|]. right. left. eauto. }
  destruct (cloudwatch_putMetricAlarm aws
              (memoryAlarmFor instanceId text snsTopicArn info) w2) as [w3 [e|[]]].
  - eexists _, _, _, _. split; [reflexivity|]. cbn [log].
    split; [rewrite <- !app_assoc; reflexivity|]. right. right. left. eauto.
  - eexists _, _, _, _. split; [reflexivity|]. cbn [log].
    split; [rewrite <- !app_assoc; reflexivity|]. right. right. right. eauto.
Qed.

Lemma createAlarms_Reconciled (st : Run W) :
  exists st' r new,
    createAlarms aws instanceId snsTopicArn st = Some (st', r)
    /\ log st' = log st ++ new
    /\ Reconciled instanceId text snsTopicArn new r.
Proof.
  destruct (createAlarms_log st) as (st' & r & reply & puts & Hrun & Hlog & Hcases).
  exists st', r, ((DescribeInstances [instanceId], reply) :: puts).
  split; [exact Hrun|]. split; [exact Hlog|].
  destruct Hcases as [(e & -> & -> & [->|[-> [result ->]]])|[(e & -> & ->)
                     |[(info & e & -> & ->)|(info & -> & ->)]]]; constructor.
Qed.
End ReconcilerLog.

Section HandlerLog.
Context {W : Type}.
Variable aws : Collaborators W.

(** Every run of the handler has a log that the relation [Handled]
    describes. *)
Lemma handler_Handled topic event (st st' : Run W) res :
  handler aws topic event st = Some (st', res) ->
  exists new, log st' = log st ++ new /\ Handled topic event new res.
Proof.
  intros Hrun. destruct (rejection topic event) as [e|] eqn:Hrej.
  { rewrite (handler_rejection aws topic event e st Hrej) in Hrun.
    injection Hrun as <- <-. exists []. split; [now rewrite app_nil_r|now constructor]. }
  rewrite (handler_validated aws topic event st Hrej) in Hrun.
  destruct (rejection_None_inv _ _ Hrej) as (_ & _ & _ & _ & _ & [text Htext] & _).
  destruct (strict_eq_string (stateOf event) "running") eqn:Hrunning.
  - apply strict_eq_string_true in Hrunning.
    destruct (installCloudWatchAgent_Provisioned aws (instanceIdOf event) text Htext st)
      as (st1 & r1 & l1 & Hinstall & Hlog1 & Hprov).
    destruct r1 as [[]|e].
    + rewrite (bind_returned _ _ _ _ _ Hinstall) in Hrun.
      destruct (createAlarms_Reconciled aws (instanceIdOf event) text Htext
                  (or_empty topic) st1)
        as (st2 & r2 & l2 & Hcreate & Hlog2 & Hrec).
      rewrite Hrun in Hcreate. injection Hcreate as <- <-.
      exists (l1 ++ l2). split; [rewrite Hlog2, Hlog1; now rewrite app_assoc|].
      now apply Handled_provisioned with (text := text).
    + rewrite (bind_raised _ _ _ _ _ Hinstall) in Hrun. injection Hrun as <- <-.
      exists l1. split; [exact Hlog1|].
      now apply Handled_provision_failed with (text := text).
  - destruct (strict_eq_string (stateOf event) "terminated") eqn:Hterminated.
    + apply strict_eq_string_true in Hterminated.
      destruct (deleteAlarms_log aws (instanceIdOf event) text Htext st)
        as (st1 & r1 & reply & Hdelete & Hlog1 & Hcases).
      rewrite Hrun in Hdelete. injection Hdelete as <- <-.
      eexists. split; [exact Hlog1|].
      destruct Hcases as [[-> ->]|(e & -> & ->)];
        [now apply Handled_deleted|now apply Handled_delete_rejected].
    + injection Hrun as <- <-. exists []. split; [now rewrite app_nil_r|].
      apply Handled_ignored; [exact Hrej| |].
      * intros H. apply strict_eq_string_true in H. congruence.
      * intros H. apply strict_eq_string_true in H. congruence.
Qed.

(** The handler always ends. *)
Lemma handler_total topic event (st : Run W) :
  exists st' res, handler aws topic event st = Some (st', res).
Proof.
  destruct (rejection topic event) as [e|] eqn:Hrej.
  { rewrite (handler_rejection aws topic event e st Hrej). eauto. }
  rewrite (handler_validated aws topic event st Hrej).
  destruct (rejection_None_inv _ _ Hrej) as (_ & _ & _ & _ & _ & [text Htext] & _).
  destruct (strict_eq_string (stateOf event) "running").
  - destruct (installCloudWatchAgent_Provisioned aws (instanceIdOf event) text Htext st)
      as (s1 & r1 & _ & H1 & _).
    destruct r1 as [[]|e].
    + rewrite (bind_returned _ _ _ _ _ H1).
      destruct (createAlarms_Reconciled aws (instanceIdOf event) text Htext
                  (or_empty topic) s1) as (s2 & r2 & _ & H2 & _).
      eauto.
    + rewrite (bind_raised _ _ _ _ _ H1). eauto.
  - destruct (strict_eq_string (stateOf event) "terminated"); [|unfold ret; eauto].
    destruct (deleteAlarms_log aws (instanceIdOf event) text Htext st)
      as (s1 & r1 & _ & H1 & _).
    eauto.
Qed.
End HandlerLog.

(** What the three kinds of log hold, count by count. *)

Lemma quiet_entries (l : list Entry) :
  Forall (fun e => match fst e with
                   | DescribeInstances _ | PutMetricAlarm _ | DeleteAlarms _ => False
                   | _ => True
                   end) l ->
  putAlarms l = [] /\ deletedNames l = [] /\ describes l = [].
Proof.
  induction 1 as [|[c r] l Hc _ (IH1 & IH2 & IH3)]; [auto|].
  unfold putAlarms, deletedNames, describes in *.
  destruct c; cbn in *; try contradiction; auto.
Qed.

Lemma putAlarms_app l1 l2 : putAlarms (l1 ++ l2) = putAlarms l1 ++ putAlarms l2.
Proof. apply omap_app. Qed.

Lemma deletedNames_app l1 l2 : deletedNames (l1 ++ l2) = deletedNames l1 ++ deletedNames l2.
Proof. unfold deletedNames. now rewrite omap_app, concat_app. Qed.

Lemma describes_app l1 l2 : describes (l1 ++ l2) = describes l1 ++ describes l2.
Proof. apply List.filter_app. Qed.

Lemma Provisioned_steps instanceId text l res :
  Provisioned instanceId text l res ->
  steps l `prefix_of` [SendCommand (installCommand instanceId);
                       PutParameter (agentConfigParameter text);
                       SendCommand (configureCommand instanceId text)]
  /\ (res = Returned tt ->
      steps l = [SendCommand (installCommand instanceId);
                 PutParameter (agentConfigParameter text);
                 SendCommand (configureCommand instanceId text)]).
Proof.
  intros [l0 e Hd|l0 e Hd|l1 l2 res0 Hd1 Hd2].
  - destruct (Dispatched_budget _ _ _ _ Hd) as (_ & _ & ->).
    split; [now eexists|discriminate].
  - destruct (Dispatched_budget _ _ _ _ Hd) as (_ & _ & Hs).
    rewrite steps_app, Hs. split; [now eexists|discriminate].
  - destruct (Dispatched_budget _ _ _ _ Hd1) as (_ & _ & Hs1).
    destruct (Dispatched_budget _ _ _ _ Hd2) as (_ & _ & Hs2).
    change (l1 ++ (PutParameter (agentConfigParameter text), Ack) :: l2)
      with (l1 ++ [(PutParameter (agentConfigParameter text), Ack)] ++ l2).
    rewrite !steps_app, Hs1, Hs2. split; [now exists []|reflexivity].
Qed.

Lemma Provisioned_quiet instanceId text l res :
  Provisioned instanceId text l res ->
  putAlarms l = [] /\ deletedNames l = [] /\ describes l = [].
Proof.
  intros Hprov. apply quiet_entries.
  eapply Forall_impl; [apply (Provisioned_calls _ _ _ _ Hprov)|].
  intros [[] r]; cbn; tauto.
Qed.

Lemma Reconciled_counts instanceId text target l res :
  Reconciled instanceId text target l res ->
  polls l = [] /\ delays l = 0%Z /\ steps l = [] /\ deletedNames l = []
  /\ length (describes l) = 1 /\ length (putAlarms l) <= 2.
Proof. intros []; cbn; repeat split; lia. Qed.

(** Where a put stands in the log of [createAlarms]: after the describe
    call, with nothing but puts in between. *)
Lemma Reconciled_put_split instanceId text target l res mid a r after :
  Reconciled instanceId text target l res ->
  l = mid ++ (PutMetricAlarm a, r) :: after ->
  steps mid = [] /\ length (describes mid) = 1.
Proof.
  intros Hr Heq.
  destruct Hr; destruct mid as [|x [|y [|z mid]]]; try discriminate;
    injection Heq; intros; subst; try discriminate;
    try (exfalso; destruct mid; discriminate); split; reflexivity.
Qed.

(** The memory alarm of the log of [createAlarms] is the one alarm of the
    CWAgent namespace. *)
Lemma Reconciled_memory_alarm instanceId text target l res a :
  Reconciled instanceId text target l res ->
  In a (putAlarms l) ->
  CloudWatch.Namespace a = "CWAgent" ->
  exists info, a = memoryAlarmFor instanceId text target info.
Proof.
  intros Hr Hin Hns. destruct Hr; cbn in Hin.
  - destruct Hin.
  - destruct Hin.
  - destruct Hin as [<-|[]]. discriminate Hns.
  - destruct Hin as [<-|[<-|[]]]; [discriminate Hns|eauto].
  - destruct Hin as [<-|[<-|[]]]; [discriminate Hns|eauto].
Qed.

Lemma put_is_counted (l : list Entry) a r : In (PutMetricAlarm a, r) l -> putAlarms l <> [].
Proof.
  intros Hin. apply in_split in Hin as (l1 & l2 & ->).
  rewrite putAlarms_app. cbn. intros H. apply app_eq_nil in H as [_ H]. discriminate.
Qed.

(** An entry of [l1 ++ l2] that is not in [l1] stands in [l2]. *)
Lemma split_past {A} (l1 l2 before after : list A) x :
  l1 ++ l2 = before ++ x :: after ->
  ~ In x l1 ->
  exists mid, before = l1 ++ mid /\ l2 = mid ++ x :: after.
Proof.
  intros Heq Hout. apply app_eq_app in Heq as [l [[-> Heq]|[-> ->]]].
  - destruct l as [|y l].
    + exists []. cbn in Heq. subst l2. rewrite !app_nil_r. split; reflexivity.
    + injection Heq as <- _. exfalso. apply Hout, in_or_app. right. now left.
  - now exists l.
Qed.

(** ** More on the Event Dispatcher *)

Lemma rejection_kinds topic event e :
  rejection topic event = Some e ->
  In e validationErrors \/ exists message, e = TypeError message.
Proof.
  unfold rejection, validationErrors.
  destruct (negb (truthy_field topic)); [intros [= <-]; left; cbn; auto|].
  destruct (negb (truthy (detailOf event)) || negb (typeof_object (detailOf event))).
  { destruct event; intros [= <-]; cbn; eauto. }
  destruct (negb (truthy (instanceIdOf event))).
  { destruct event; intros [= <-]; cbn; eauto. }
  destruct (negb (truthy (stateOf event))).
  { destruct event; intros [= <-]; cbn; eauto 6. }
  destruct (ToString (instanceIdOf event)); [destruct (ToString (stateOf event))|];
    destruct event; intros [= <-]; eauto.
Qed.

Lemma Provenance_app e before l : Provenance e l -> Provenance e (before ++ l).
Proof.
  intros [H|[H|(pre & c & ->)]]; unfold Provenance; auto.
  right. right. exists (before ++ pre), c. now rewrite app_assoc.
Qed.

Lemma Polling_Provenance instanceId commandId attempts l res :
  Polling instanceId commandId attempts l res ->
  forall e, res = Raised e -> Provenance e l.
Proof.
  induction 1 as [a Ha|a r Ha Hok|a r Ha Hok Hko|a r rest res Ha Hok Hko Hrest IH
                 |a err rest res Ha Herr Hrest IH|a err Ha Herr];
    intros e Hres; try discriminate.
  - injection Hres as <-. now left.
  - injection Hres as <-. right. left. eauto.
  - apply (Provenance_app e [_; _]). now apply IH.
  - apply (Provenance_app e [_; _]). now apply IH.
  - injection Hres as <-. right. right. now exists [], (pollCall instanceId commandId).
Qed.

Lemma Dispatched_Provenance instanceId params l e :
  Dispatched instanceId params l (Raised e) -> Provenance e l.
Proof.
  intros Hd. inversion Hd as [| |result commandId rest res Hid Hpoll]; subst.
  - right. right. now exists [], (SendCommand params).
  - apply (Provenance_app e [_; _]). now apply (Polling_Provenance _ _ _ _ _ Hpoll).
Qed.

Lemma Provisioned_Provenance instanceId text l e :
  Provisioned instanceId text l (Raised e) -> Provenance e l.
Proof.
  intros Hp. inversion Hp as [l0 e0 Hd|l0 e0 Hd|l1 l2 res0 Hd1 Hd2]; subst.
  - now apply Dispatched_Provenance in Hd.
  - right. right. eauto.
  - apply Dispatched_Provenance in Hd2.
    apply (Provenance_app e (l1 ++ [(PutParameter (agentConfigParameter text), Ack)]))
      in Hd2.
    now rewrite <- app_assoc in Hd2.
Qed.

(** X15: in a run of the handler that puts an alarm of the CWAgent
    namespace, the provisioner has written the agent configuration before,
    with the write acknowledged; the alarm is on a metric that the written
    configuration collects for memory, and is dimensioned by exactly the
    dimensions that configuration appends to what it reports. *)
Theorem memory_alarm_matches_agent_config {W} (aws : Collaborators W) topic event
    (st st' : Run W) res new a :
  handler aws topic event st = Some (st', res) ->
  log st' = log st ++ new ->
  In a (putAlarms new) ->
  CloudWatch.Namespace a = "CWAgent" ->
  exists w before after,
    new = before ++ (PutParameter w, Ack) :: after
    /\ In a (putAlarms after)
    /\ SSM.Value w = JSON_stringify configContent
    /\ In (JsString (CloudWatch.MetricName a)) (collectedMemoryMetrics configContent)
    /\ map CloudWatch.dim_Name (CloudWatch.Dimensions a)
       ≡ₚ appendedDimensions configContent.
Proof.
  intros Hrun Hlog Hin Hns.
  destruct (handler_Handled aws topic event st st' _ Hrun) as (new1 & Hlog1 & Hh).
  rewrite Hlog in Hlog1. apply app_inv_head in Hlog1. subst new1.
  destruct Hh as [e0 Hrej|Hrej Hr Ht|text Hrej Hs Hi|text e0 Hrej Hs Hi
                 |text l e0 Hrej Hs Hi Hp|text l1 l2 res Hrej Hs Hi Hp Hr];
    try (now destruct Hin).
  - destruct (Provisioned_quiet _ _ _ _ Hp) as (Hputs & _). rewrite Hputs in Hin.
    destruct Hin.
  - destruct (Provisioned_quiet _ _ _ _ Hp) as (Hputs & _).
    rewrite putAlarms_app, Hputs in Hin. cbn [app] in Hin.
    destruct (Reconciled_memory_alarm _ _ _ _ _ _ Hr Hin Hns) as [info ->].
    inversion Hp as [| |la lb res0 Hda Hdb]; subst.
    exists (agentConfigParameter text), la, (lb ++ l2).
    split; [now rewrite <- app_assoc|].
    split; [rewrite putAlarms_app; apply in_or_app; now right|].
    split; [reflexivity|]. split; [now left|].
    cbn. symmetry. apply (Permutation_cons_append ["InstanceId"; "InstanceType"] "ImageId").
Qed.

Lemma memory_alarm_matches_agent_config_witness :
  exists w before after,
    log (state_after
           (handler happy_cloud (Some "topic")
              (lifecycle_event (JsString "i-123") (JsString "running"))) fresh)
    = before ++ (PutParameter w, Ack) :: after
    /\ In (memoryAlarmFor (JsString "i-123") "i-123" "topic"
             {| instanceType := "t3.micro"; imageId := "ami-1" |}) (putAlarms after)
    /\ SSM.Value w = JSON_stringify configContent
    /\ In (JsString (CloudWatch.MetricName
                       (memoryAlarmFor (JsString "i-123") "i-123" "topic"
                          {| instanceType := "t3.micro"; imageId := "ami-1" |})))
          (collectedMemoryMetrics configContent)
    /\ map CloudWatch.dim_Name
         (CloudWatch.Dimensions
            (memoryAlarmFor (JsString "i-123") "i-123" "topic"
               {| instanceType := "t3.micro"; imageId := "ami-1" |}))
       ≡ₚ appendedDimensions configContent.
Proof.
  eapply (memory_alarm_matches_agent_config happy_cloud (Some "topic")
            (lifecycle_event (JsString "i-123") (JsString "running")) fresh
            _ (Returned tt)).
  - vm_compute. reflexivity.
  - reflexivity.
  - vm_compute. right. left. reflexivity.
  - reflexivity.
Defined.

(** X16: whatever the handler raises is the error of a check it failed
    before calling anyone, one of its four validation errors or a TypeError
    of reading the event or of converting the instance id or the state to
    text, or it is one of the three errors the code makes itself, the timeout
    error, a command-failed error or the lookup error naming the instance id,
    or else it is the very value with which the last call of the run was
    rejected: a rejection is passed on as it is, and nothing is called after
    it. *)
Theorem handler_raises_own_or_last {W} (aws : Collaborators W) topic event
    (st st' : Run W) e :
  handler aws topic event st = Some (st', Raised e) ->
  exists new,
    log st' = log st ++ new
    /\ ((rejection topic event = Some e /\ new = []
         /\ (In e validationErrors \/ exists message, e = TypeError message))
        \/ e = CommandTimeout
        \/ (exists status detail, e = CommandFailed status detail)
        \/ (exists text, ToString (instanceIdOf event) = Some text /\ e = LookupError text)
        \/ (exists before c, new = before ++ [(c, Rejected e)])).
Proof.
  intros Hrun.
  destruct (handler_Handled aws topic event st st' _ Hrun) as (new & Hlog & Hh).
  exists new. split; [exact Hlog|].
  inversion Hh as [e0 Hrej| |text Hrej Hs Hi|text e0 Hrej Hs Hi|text l e0 Hrej Hs Hi Hp
                  |text l1 l2 res Hrej Hs Hi Hp Hr]; subst.
  - left. split; [exact Hrej|]. split; [reflexivity|]. exact (rejection_kinds _ _ _ Hrej).
  - right. right. right. right. now eexists [], _.
  - right. destruct (Provisioned_Provenance _ _ _ _ Hp) as [H|[H|H]]; auto.
  - right. inversion Hr; subst.
    + right. right. right. now exists l1, (DescribeInstances [instanceIdOf event]).
    + right. right. left. eauto.
    + right. right. right. eexists (l1 ++ [_]), _. now rewrite <- app_assoc.
    + right. right. right. eexists (l1 ++ [_; _]), _. now rewrite <- app_assoc.
Qed.

Lemma handler_raises_own_or_last_witness :
  exists new,
    [(SendCommand (installCommand (JsString "i-123")), CommandSent (sent_with "cmd-1"));
     (SetTimeout 5000, Elapsed);
     (pollCall (JsString "i-123") "cmd-1",
      Rejected (AWSError (Some "ThrottlingException") (Some "Rate exceeded")))]
    = log fresh ++ new
    /\ ((rejection (Some "topic") (lifecycle_event (JsString "i-123") (JsString "running"))
         = Some (AWSError (Some "ThrottlingException") (Some "Rate exceeded"))
         /\ new = []
         /\ (In (AWSError (Some "ThrottlingException") (Some "Rate exceeded"))
                validationErrors
             \/ exists message,
                  AWSError (Some "ThrottlingException") (Some "Rate exceeded")
                  = TypeError message))
        \/ AWSError (Some "ThrottlingException") (Some "Rate exceeded") = CommandTimeout
        \/ (exists status detail,
              AWSError (Some "ThrottlingException") (Some "Rate exceeded")
              = CommandFailed status detail)
        \/ (exists text,
              ToString (instanceIdOf (lifecycle_event (JsString "i-123")
                                        (JsString "running"))) = Some text
              /\ AWSError (Some "ThrottlingException") (Some "Rate exceeded")
                 = LookupError text)
        \/ (exists before c,
              new = before
                    ++ [(c, Rejected (AWSError (Some "ThrottlingException")
                                               (Some "Rate exceeded")))])).
Proof.
  apply (handler_raises_own_or_last throttled_cloud (Some "topic")
           (lifecycle_event (JsString "i-123") (JsString "running")) fresh
           {| world := ∅;
              log := [(SendCommand (installCommand (JsString "i-123")),
                       CommandSent (sent_with "cmd-1"));
                      (SetTimeout 5000, Elapsed);
                      (pollCall (JsString "i-123") "cmd-1",
                       Rejected (AWSError (Some "ThrottlingException")
                                          (Some "Rate exceeded")))] |}).
  vm_compute. reflexivity.
Defined.

(** X17: the handler always ends, whatever the event.  Its run makes the
    provisioner's steps in their order, the install dispatch, the parameter
    write, the configure dispatch, each at most once, and calls nothing when
    the instance id has no text; it polls at most 60 times, asks the timer
    for at most 610000 ms, describes at most once and puts at most two
    alarms; a run that deletes alarms makes that one call and no other; and
    wherever an alarm put stands in the log, all three steps of the
    provisioner and the one describe call stand before it. *)
Theorem handler_footprint {W} (aws : Collaborators W) topic event (st : Run W) :
  exists st' res new,
    handler aws topic event st = Some (st', res)
    /\ log st' = log st ++ new
    /\ (forall text,
          ToString (instanceIdOf event) = Some text ->
          steps new `prefix_of` [SendCommand (installCommand (instanceIdOf event));
                                 PutParameter (agentConfigParameter text);
                                 SendCommand (configureCommand (instanceIdOf event) text)])
    /\ (ToString (instanceIdOf event) = None -> new = [])
    /\ length (polls new) <= 60
    /\ (delays new <= 610000)%Z
    /\ length (describes new) <= 1
    /\ length (putAlarms new) <= 2
    /\ (deletedNames new <> [] -> length new = 1)
    /\ (forall before a r after,
          new = before ++ (PutMetricAlarm a, r) :: after ->
          exists text,
            ToString (instanceIdOf event) = Some text
            /\ steps before = [SendCommand (installCommand (instanceIdOf event));
                               PutParameter (agentConfigParameter text);
                               SendCommand (configureCommand (instanceIdOf event) text)]
            /\ length (describes before) = 1).
Proof.
  destruct (handler_total aws topic event st) as (st' & res & Hrun).
  destruct (handler_Handled aws topic event st st' _ Hrun) as (new & Hlog & Hh).
  exists st', res, new. split; [exact Hrun|]. split; [exact Hlog|].
  assert (Hnil : forall before (x : Entry) after, [] = before ++ x :: after -> False)
    by (intros [|? ?] ? ? ?; discriminate).
  destruct Hh as [e0 Hrej|Hrej Hr Ht|text Hrej Hs Hi|text e0 Hrej Hs Hi
                 |text l e0 Hrej Hs Hi Hp|text l1 l2 res Hrej Hs Hi Hp Hr].
  - refine (conj _ (conj _ (conj _ (conj _ (conj _ (conj _ (conj _ _)))))));
      cbn; try lia; try congruence.
    + intros text _. apply prefix_nil.
    + intros before a r after Heq. destruct (Hnil _ _ _ Heq).
  - refine (conj _ (conj _ (conj _ (conj _ (conj _ (conj _ (conj _ _)))))));
      cbn; try lia; try congruence.
    + intros text _. apply prefix_nil.
    + intros before a r after Heq. destruct (Hnil _ _ _ Heq).
  - refine (conj _ (conj _ (conj _ (conj _ (conj _ (conj _ (conj _ _)))))));
      cbn; try lia; try congruence.
    + intros text' _. apply prefix_nil.
    + intros [|? [|? ?]] a r after Heq; discriminate.
  - refine (conj _ (conj _ (conj _ (conj _ (conj _ (conj _ (conj _ _)))))));
      cbn; try lia; try congruence.
    + intros text' _. apply prefix_nil.
    + intros [|? [|? ?]] a r after Heq; discriminate.
  - destruct (Provisioned_quiet _ _ _ _ Hp) as (Hputs & Hdel & Hdesc).
    destruct (Provisioned_budget _ _ _ _ Hp) as [Hpolls Hdelays].
    destruct (Provisioned_steps _ _ _ _ Hp) as [Hsteps _].
    rewrite Hputs, Hdel, Hdesc.
    refine (conj _ (conj _ (conj _ (conj _ (conj _ (conj _ (conj _ _)))))));
      cbn [length]; try lia; try congruence.
    intros before a r after Heq. exfalso.
    apply (put_is_counted l a r); [|exact Hputs].
    rewrite Heq. apply in_or_app. right. now left.
  - destruct (Provisioned_quiet _ _ _ _ Hp) as (Hputs & Hdel & Hdesc).
    destruct (Provisioned_budget _ _ _ _ Hp) as [Hpolls Hdelays].
    destruct (Provisioned_steps _ _ _ _ Hp) as [_ Hall]. specialize (Hall eq_refl).
    destruct (Reconciled_counts _ _ _ _ _ Hr) as (Hp2 & Hd2 & Hs2 & Hdn2 & Hdesc2 & Hputs2).
    rewrite steps_app, polls_app, delays_app, describes_app, putAlarms_app,
      deletedNames_app, Hputs, Hdel, Hdesc, Hp2, Hd2, Hs2, Hdn2, Hall, !app_nil_r.
    cbn [app length].
    refine (conj _ (conj _ (conj _ (conj _ (conj _ (conj _ (conj _ _)))))));
      try lia; try congruence;
      try (intros text' Htext'; rewrite Hi in Htext'; injection Htext' as <-;
           now exists []).
    intros before a r after Heq.
    destruct (split_past _ _ _ _ _ Heq) as (mid & -> & Hl2).
    { intros Hin. now apply (put_is_counted l1 a r). }
    destruct (Reconciled_put_split _ _ _ _ _ _ _ _ _ Hr Hl2) as [Hsmid Hdmid].
    exists text. split; [exact Hi|].
    rewrite steps_app, describes_app, length_app, Hall, Hsmid, Hdesc, app_nil_r.
    split; [reflexivity|exact Hdmid].
Qed.

Lemma prop_string_object v k s : prop v k = JsString s -> truthy v = true /\ typeof_object v = true.
Proof. destruct v; cbn; try discriminate. auto. Qed.

Lemma Dispatched_nonempty instanceId params l res :
  Dispatched instanceId params l res -> l <> [].
Proof. intros []; discriminate. Qed.

Lemma Provisioned_nonempty instanceId text l res :
  Provisioned instanceId text l res -> l <> [].
Proof.
  intros [l0 e Hd|l0 e Hd|l1 l2 res0 Hd1 Hd2].
  - exact (Dispatched_nonempty _ _ _ _ Hd).
  - intros H. apply app_eq_nil in H as [_ H]. discriminate.
  - intros H. apply app_eq_nil in H as [_ H]. discriminate.
Qed.

Lemma log_grows {W} (st st' : Run W) new :
  log st' = log st ++ new -> (new <> [] <-> log st' <> log st).
Proof.
  intros Hlog. split.
  - intros Hnew Heq. rewrite Heq in Hlog. rewrite <- (app_nil_r (log st)) in Hlog at 1.
    apply app_inv_head in Hlog. congruence.
  - intros Hne ->. rewrite app_nil_r in Hlog. contradiction.
Qed.

(** X18: for an event with a string instance id and a string state, both
    non-empty, the handler ends, and it calls a collaborator exactly when the
    state is one of the states in the pattern of the stack's EventBridge
    rule; for any other state it returns with nothing called. *)
Theorem rule_states_are_the_handled_states {W} (aws : Collaborators W) topic event
    instanceId state (st : Run W) :
  topic <> "" ->
  instanceIdOf event = JsString instanceId ->
  instanceId <> "" ->
  stateOf event = JsString state ->
  state <> "" ->
  exists st' res,
    handler aws (Some topic) event st = Some (st', res)
    /\ (In state Stack.ruleStates <-> log st' <> log st)
    /\ (~ In state Stack.ruleStates -> st' = st /\ res = Returned tt).
Proof.
  intros Htopic Hid Hne Hstate Hne'.
  destruct (prop_string_object _ _ _ Hid) as [Hdetail Hobject].
  assert (Hrej : rejection (Some topic) event = None).
  { apply (rejection_none topic event instanceId state); try assumption.
    - rewrite Hid. cbn. now apply negb_true_iff, String.eqb_neq.
    - rewrite Hstate. cbn. now apply negb_true_iff, String.eqb_neq.
    - now rewrite Hid.
    - now rewrite Hstate. }
  destruct (handler_total aws (Some topic) event st) as (st' & res & Hrun).
  exists st', res. split; [exact Hrun|].
  destruct (handler_Handled aws _ _ st st' res Hrun) as (new & Hlog & Hh).
  rewrite <- (log_grows st st' new Hlog).
  unfold Stack.ruleStates. cbn [In].
  inversion Hh as [e0 Hrej'|Hrej' Hr Ht|i Hrej' Hs Hi|i e0 Hrej' Hs Hi|i l e0 Hrej' Hs Hi Hp
                  |i l1 l2 res0 Hrej' Hs Hi Hp Hr]; subst; try congruence.
  - assert (Hout : ~ ("running" = state \/ "terminated" = state \/ False)).
    { intros [<-|[<-|[]]]; congruence. }
    split; [tauto|]. intros _.
    rewrite (handler_validated aws _ _ st Hrej) in Hrun.
    rewrite (strict_eq_string_false _ _ Hr), (strict_eq_string_false _ _ Ht) in Hrun.
    unfold ret in Hrun. split; [congruence|reflexivity].
  - split; [split; [discriminate|]|]; intros; [|exfalso]; rewrite Hstate in Hs;
      injection Hs as ->; auto.
  - split; [split; [discriminate|]|]; intros; [|exfalso]; rewrite Hstate in Hs;
      injection Hs as ->; auto.
  - rewrite Hstate in Hs. injection Hs as ->.
    split; [split; [intros _; exact (Provisioned_nonempty _ _ _ _ Hp)|auto]|].
    intros H. exfalso. auto.
  - rewrite Hstate in Hs. injection Hs as ->.
    split; [split; [intros _ H|auto]|intros H; exfalso; auto].
    apply app_eq_nil in H as [H _]. exact (Provisioned_nonempty _ _ _ _ Hp H).
Qed.

Lemma rule_states_are_the_handled_states_witness :
  exists (st' : Run (gmap string CloudWatch.PutMetricAlarmInput)) res,
    handler happy_cloud (Some "topic")
      (lifecycle_event (JsString "i-123") (JsString "stopped")) fresh = Some (st', res)
    /\ (In "stopped" Stack.ruleStates <-> log st' <> log fresh)
    /\ (~ In "stopped" Stack.ruleStates -> st' = fresh /\ res = Returned tt).
Proof.
  apply (rule_states_are_the_handled_states happy_cloud "topic"
           (lifecycle_event (JsString "i-123") (JsString "stopped")) "i-123" "stopped" fresh);
    first [discriminate | reflexivity].
Defined.

Lemma Provisioned_refers instanceId text l res :
  Provisioned instanceId text l res ->
  Forall (fun e => refers_to instanceId text (fst e)) l.
Proof.
  intros Hp. eapply Forall_impl; [apply (Provisioned_calls _ _ _ _ Hp)|].
  intros [[] r]; cbn; try tauto.
  - now intros [-> | ->].
  - now intros ->.
Qed.

Lemma Reconciled_refers instanceId text target l res :
  Reconciled instanceId text target l res ->
  Forall (fun e => refers_to instanceId text (fst e)) l.
Proof.
  intros []; repeat (apply Forall_cons_2; [|]); try apply Forall_nil_2; cbn; auto.
Qed.

(** X19: whatever the type of the instance id of the event, every call of a
    run of the handler refers to the instance by the id as it came or by its
    text: each dispatch is sent to the id as it came, alone, each poll asks
    about it, the one describe call asks for it, alone, and each alarm put is
    dimensioned by it; the parameter written is keyed by the text of the id,
    and the alarms put and deleted are named by that text. *)
Theorem handler_passes_id_as_it_came {W} (aws : Collaborators W) topic event
    (st st' : Run W) res new c r :
  handler aws topic event st = Some (st', res) ->
  log st' = log st ++ new ->
  In (c, r) new ->
  exists text,
    ToString (instanceIdOf event) = Some text
    /\ match c with
       | SetTimeout _ => True
       | SendCommand p => SSM.InstanceIds p = [instanceIdOf event]
       | GetCommandInvocation q => SSM.gci_InstanceId q = instanceIdOf event
       | PutParameter w => SSM.Name w = "/cloudwatch-agent/config/" +:+ text
       | DescribeInstances ids => ids = [instanceIdOf event]
       | PutMetricAlarm a =>
           In {| CloudWatch.dim_Name := "InstanceId";
                 CloudWatch.dim_Value := instanceIdOf event |}
              (CloudWatch.Dimensions a)
           /\ In (CloudWatch.AlarmName a)
                 ["CPU-High-" +:+ text; "Memory-High-" +:+ text]
       | DeleteAlarms names => names = ["CPU-High-" +:+ text; "Memory-High-" +:+ text]
       end.
Proof.
  intros Hrun Hlog Hin.
  destruct (handler_Handled aws topic event st st' _ Hrun) as (new1 & Hlog1 & Hh).
  rewrite Hlog in Hlog1. apply app_inv_head in Hlog1. subst new1.
  assert (Hall : exists text,
             ToString (instanceIdOf event) = Some text
             /\ Forall (fun e => refers_to (instanceIdOf event) text (fst e)) new).
  { destruct Hh as [e0 Hrej|Hrej Hr Ht|text Hrej Hs Hi|text e0 Hrej Hs Hi
                   |text l e0 Hrej Hs Hi Hp|text l1 l2 res Hrej Hs Hi Hp Hr];
      try (now destruct Hin); exists text; (split; [exact Hi|]).
    - apply Forall_cons_2; [reflexivity|apply Forall_nil_2].
    - apply Forall_cons_2; [reflexivity|apply Forall_nil_2].
    - exact (Provisioned_refers _ _ _ _ Hp).
    - apply Forall_app. split;
        [exact (Provisioned_refers _ _ _ _ Hp)|exact (Reconciled_refers _ _ _ _ _ Hr)]. }
  destruct Hall as (text & Htext & Hall). exists text. split; [exact Htext|].
  rewrite Forall_forall in Hall. apply list_elem_of_In, Hall in Hin.
  exact Hin.
Qed.

Lemma handler_passes_id_as_it_came_witness :
  exists text,
    ToString (instanceIdOf (lifecycle_event (JsNumber "123") (JsString "running")))
    = Some text
    /\ In {| CloudWatch.dim_Name := "InstanceId";
             CloudWatch.dim_Value :=
               instanceIdOf (lifecycle_event (JsNumber "123") (JsString "running")) |}
          (CloudWatch.Dimensions (cpuAlarmFor (JsNumber "123") "123" "topic"))
    /\ In (CloudWatch.AlarmName (cpuAlarmFor (JsNumber "123") "123" "topic"))
          ["CPU-High-" +:+ text; "Memory-High-" +:+ text].
Proof.
  eapply (handler_passes_id_as_it_came happy_cloud (Some "topic")
            (lifecycle_event (JsNumber "123") (JsString "running")) fresh
            (state_after
               (handler happy_cloud (Some "topic")
                  (lifecycle_event (JsNumber "123") (JsString "running"))) fresh)
            (Returned tt) _
            (PutMetricAlarm (cpuAlarmFor (JsNumber "123") "123" "topic")) Ack).
  - vm_compute. reflexivity.
  - reflexivity.
  - vm_compute. do 8 right. left. reflexivity.
Defined.
